(** * ChronoVault: the time-locked delivery engine of [app.py]

    A shallow embedding of the delivery worker ([send_time_message]), the
    scheduler tick ([check_and_send_messages]) and the session guard
    ([is_session_valid], [dashboard], [create_message]) of [src/app.py],
    followed by the properties the specification states about them; then
    the account routes ([index], [register], [login], [logout]), the [User]
    methods and [init_scheduler], with the properties the code shows.

    Modelling decisions, all visible in the definitions below:
    - a [datetime] is an integer instant ([Z]); [time.time()] values are
      integers too (only their equality is ever used);
    - the two tables are lists of rows in row order; the primary key is the
      [id] column, and [PrimaryKey] states its uniqueness where a property
      needs it;
    - [datetime.now()] and the mail transport are the environment: the
      k-th reading of the clock is [clock E k], and the outcome of the k-th
      call of [mail.send] is [transport E k msg] ([false]: the call raises);
    - [db.session.commit()] is part of the environment too: the k-th commit
      goes through when [commit_ok E k] and raises otherwise, writing
      nothing;
    - [print] calls are not modelled. *)

From Stdlib Require Import ZArith List String Ascii Bool Lia Permutation.
Import ListNotations.
Open Scope string_scope.
Open Scope list_scope.
Open Scope Z_scope.

(** ** Database models *)

Module User.
Record t := mk {
  id : Z;
  username : string;
  email : string;
  password_hash : string;
  created_at : Z
}.
End User.

Module TimeMessage.
Record t := mk {
  id : Z;
  user_id : Z;
  content : string;
  recipient_email : string;
  delivery_datetime : Z;
  delivered : bool;
  created_at : Z;
  delivered_at : option Z
}.

(** [message.delivered = True; message.delivered_at = now] on one row. *)
Definition set_delivered (now : Z) (m : t) : t :=
  {| id := id m;
     user_id := user_id m;
     content := content m;
     recipient_email := recipient_email m;
     delivery_datetime := delivery_datetime m;
     delivered := true;
     created_at := created_at m;
     delivered_at := Some now |}.
End TimeMessage.

(** ** Mail *)

(** [flask_mail.Message] *)
Module Message.
Record t := mk {
  subject : string;
  recipients : list string;
  body : string
}.
End Message.

(** One call of [mail.send] made by [send_time_message]: the message id it
    was made for, the mail handed to the transport, and whether the
    transport accepted it ([false]: [mail.send] raised). *)
Record Sent := mkSent {
  for_message : Z;
  mail : Message.t;
  accepted : bool
}.

(** ** The environment and the world *)

Record Env := mkEnv {
  clock : nat -> Z;                       (* k-th value of datetime.now() *)
  transport : nat -> Message.t -> bool;   (* k-th call of mail.send *)
  strftime : Z -> string;                 (* '%Y-%m-%d %H:%M:%S' *)
  strptime : string -> option Z;          (* "%Y-%m-%d %H:%M"; None: ValueError *)
  commit_ok : nat -> bool;                (* k-th call of db.session.commit() *)
  APP_START_TIME : Z
}.

Record World := mkWorld {
  users : list User.t;
  time_messages : list TimeMessage.t;
  mail_log : list Sent;
  clock_reads : nat;
  commits : nat
}.

Definition with_time_messages (tbl : list TimeMessage.t) (w : World) : World :=
  {| users := users w; time_messages := tbl;
     mail_log := mail_log w; clock_reads := clock_reads w;
     commits := commits w |}.

Definition with_mail_log (l : list Sent) (w : World) : World :=
  {| users := users w; time_messages := time_messages w;
     mail_log := l; clock_reads := clock_reads w;
     commits := commits w |}.

Definition with_clock_reads (n : nat) (w : World) : World :=
  {| users := users w; time_messages := time_messages w;
     mail_log := mail_log w; clock_reads := n;
     commits := commits w |}.

Definition with_commits (n : nat) (w : World) : World :=
  {| users := users w; time_messages := time_messages w;
     mail_log := mail_log w; clock_reads := clock_reads w;
     commits := n |}.

(** ** A state monad with exceptions *)

Inductive Exn := MailError | CommitError.

Inductive Result (A : Type) :=
| Ok (a : A)
| Raised (e : Exn).
Arguments Ok {A} a.
Arguments Raised {A} e.

Definition M (A : Type) : Type := World -> Result A * World.

Definition ret {A} (a : A) : M A := fun w => (Ok a, w).

Definition bind {A B} (c : M A) (k : A -> M B) : M B :=
  fun w =>
    match c w with
    | (Ok a, w') => k a w'
    | (Raised e, w') => (Raised e, w')
    end.

Definition raise {A} (e : Exn) : M A := fun w => (Raised e, w).

(** [try: c  except Exception as e: h e] *)
Definition try_except {A} (c : M A) (h : Exn -> M A) : M A :=
  fun w =>
    match c w with
    | (Ok a, w') => (Ok a, w')
    | (Raised e, w') => h e w'
    end.

Declare Scope m_scope.
Delimit Scope m_scope with m.
Notation "x <- c ;; k" := (bind c (fun x => k))
  (at level 61, c at next level, right associativity) : m_scope.
Notation "c ;; k" := (bind c (fun _ => k))
  (at level 61, right associativity) : m_scope.
Open Scope m_scope.

(** [for x in l: f x] *)
Fixpoint for_each {A} (l : list A) (f : A -> M unit) : M unit :=
  match l with
  | [] => ret tt
  | x :: rest => f x ;; for_each rest f
  end.

(** ** Queries on the message table *)

(** [TimeMessage.query.get(message_id)] *)
Definition find_message (message_id : Z) (tbl : list TimeMessage.t)
  : option TimeMessage.t :=
  find (fun m => TimeMessage.id m =? message_id) tbl.

(** [filter(TimeMessage.delivered == False,
            TimeMessage.delivery_datetime <= current_time)] *)
Definition is_pending (current_time : Z) (m : TimeMessage.t) : bool :=
  negb (TimeMessage.delivered m)
  && (TimeMessage.delivery_datetime m <=? current_time).

Definition pending_at (current_time : Z) (tbl : list TimeMessage.t)
  : list TimeMessage.t :=
  filter (is_pending current_time) tbl.

(** The update the commit of line 106 issues: the row of the given primary
    key gets [delivered = True] and [delivered_at = now]. The statement
    carries no condition on the stored flag. *)
Definition mark_delivered (message_id now : Z) (tbl : list TimeMessage.t)
  : list TimeMessage.t :=
  map (fun m => if TimeMessage.id m =? message_id
                then TimeMessage.set_delivered now m else m) tbl.

(** The primary-key constraint on [time_message.id]. *)
Definition PrimaryKey (tbl : list TimeMessage.t) : Prop :=
  NoDup (map TimeMessage.id tbl).

(** ** Users, sessions, requests and responses *)

(** [db.session.get(User, user_id)] *)
Definition find_user (user_id : Z) (tbl : list User.t) : option User.t :=
  find (fun u => User.id u =? user_id) tbl.

(** The keys of the Flask [session] the program reads and writes. *)
Module Session.
Record t := mk {
  user_id : option Z;
  username : option string;
  app_start_time : option Z
}.

(** [session.clear()] *)
Definition clear : t :=
  {| user_id := None; username := None; app_start_time := None |}.
End Session.

Inductive Method := GET | POST.

Record Request := mkRequest {
  method : Method;
  form : string -> option string
}.

Definition Flash : Type := string * string.

Inductive Response :=
| redirect (flashed : option Flash) (endpoint : string)
| render_template (flashed : option Flash) (template : string)
| render_dashboard (user : User.t) (messages : list TimeMessage.t)
| bad_request.   (* request.form[key] on a missing key *)

(** [order_by(TimeMessage.created_at.desc())] *)
Fixpoint insert_desc (m : TimeMessage.t) (l : list TimeMessage.t)
  : list TimeMessage.t :=
  match l with
  | [] => [m]
  | x :: rest =>
      if TimeMessage.created_at x <? TimeMessage.created_at m
      then m :: l else x :: insert_desc m rest
  end.

Definition order_by_created_at_desc (l : list TimeMessage.t)
  : list TimeMessage.t :=
  fold_right insert_desc [] l.

(** The key the database gives a new row: one more than the largest. *)
Definition next_id (tbl : list TimeMessage.t) : Z :=
  1 + fold_right Z.max 0 (map TimeMessage.id tbl).

Definition is_empty (s : string) : bool := (s =? "")%string.

Definition nl : string := String (ascii_of_nat 10) EmptyString.

Section App.

Variable E : Env.

(** *** Primitive actions *)

Definition query_get (message_id : Z) : M (option TimeMessage.t) :=
  fun w => (Ok (find_message message_id (time_messages w)), w).

Definition query_pending (current_time : Z) : M (list TimeMessage.t) :=
  fun w => (Ok (pending_at current_time (time_messages w)), w).

Definition datetime_now : M Z :=
  fun w => (Ok (clock E (clock_reads w)),
            with_clock_reads (S (clock_reads w)) w).

(** [mail.send(msg)], called on behalf of message [message_id]. *)
Definition mail_send (message_id : Z) (msg : Message.t) : M unit :=
  fun w =>
    let ok := transport E (List.length (mail_log w)) msg in
    let w' := with_mail_log (mail_log w ++ [mkSent message_id msg ok]) w in
    if ok then (Ok tt, w') else (Raised MailError, w').

(** [db.session.commit()] of the pending writes [write]: the commit is
    counted; when it goes through the writes are applied, when it raises
    nothing is written. *)
Definition db_session_commit (write : World -> World) : M unit :=
  fun w =>
    let w' := with_commits (S (commits w)) w in
    if commit_ok E (commits w) then (Ok tt, write w')
    else (Raised CommitError, w').

(** Lines 104-106: the two attribute writes and the commit. *)
Definition commit_delivered (message_id now : Z) : M unit :=
  db_session_commit
    (fun w => with_time_messages
                (mark_delivered message_id now (time_messages w)) w).

(** *** The delivery worker *)

(** Lines 82-98: the mail built for a message. *)
Definition render (message : TimeMessage.t) : Message.t :=
  {| Message.subject := "ChronoVault: Your Time-Locked Message Has Arrived!";
     Message.recipients := [TimeMessage.recipient_email message];
     Message.body :=
       ("Hello!" ++ nl ++ nl
        ++ "You have received a time-locked message from ChronoVault:"
        ++ nl ++ nl
        ++ "Message created on: "
        ++ strftime E (TimeMessage.created_at message) ++ nl
        ++ "Scheduled delivery: "
        ++ strftime E (TimeMessage.delivery_datetime message) ++ nl ++ nl
        ++ "Your Message:" ++ nl
        ++ TimeMessage.content message ++ nl ++ nl
        ++ "---" ++ nl
        ++ "This message was sent by ChronoVault - Time-Locked Message Delivery App"
        ++ nl ++ "                ")%string |}.

(** Lines 78-108: what the worker does with the row it fetched. *)
Definition deliver_fetched (message_id : Z) (message : option TimeMessage.t)
  : M unit :=
  match message with
  | None => ret tt
  | Some message =>
      if TimeMessage.delivered message then ret tt
      else
        mail_send message_id (render message) ;;
        now <- datetime_now ;;
        commit_delivered message_id now
  end.

Definition send_time_message (message_id : Z) : M unit :=
  try_except
    (message <- query_get message_id ;;
     deliver_fetched message_id message)
    (fun _ => ret tt).

(** *** The scheduler tick *)

Definition check_and_send_messages : M unit :=
  try_except
    (current_time <- datetime_now ;;
     pending_messages <- query_pending current_time ;;
     for_each pending_messages
       (fun message => send_time_message (TimeMessage.id message)))
    (fun _ => ret tt).

(** *** The session guard and the routes that consult it *)

Definition is_session_valid (session : Session.t) : bool :=
  match Session.app_start_time session with
  | Some t => t =? APP_START_TIME E
  | None => false
  end.

Definition db_get_user (user_id : Z) : M (option User.t) :=
  fun w => (Ok (find_user user_id (users w)), w).

Definition query_messages_of (user_id : Z) : M (list TimeMessage.t) :=
  fun w =>
    (Ok (order_by_created_at_desc
           (filter (fun m => TimeMessage.user_id m =? user_id)
                   (time_messages w))), w).

(** [db.session.add(message); db.session.commit()] for a new message: the
    key and the column defaults are filled in at the insert. *)
Definition add_message
  (user_id : Z) (content recipient_email : string) (delivery_datetime : Z)
  : M unit :=
  created <- datetime_now ;;
  db_session_commit
    (fun w =>
       with_time_messages
         (time_messages w ++
          [{| TimeMessage.id := next_id (time_messages w);
              TimeMessage.user_id := user_id;
              TimeMessage.content := content;
              TimeMessage.recipient_email := recipient_email;
              TimeMessage.delivery_datetime := delivery_datetime;
              TimeMessage.delivered := false;
              TimeMessage.created_at := created;
              TimeMessage.delivered_at := None |}]) w).

Definition dashboard (session : Session.t) : M (Session.t * Response) :=
  match Session.user_id session with
  | None =>
      ret (Session.clear,
           redirect (Some ("Please login to access dashboard.", "info"))
                    "login")
  | Some uid =>
      if negb (is_session_valid session) then
        ret (Session.clear,
             redirect (Some ("Please login to access dashboard.", "info"))
                      "login")
      else
        user <- db_get_user uid ;;
        match user with
        | None =>
            ret (Session.clear,
                 redirect (Some ("Session expired. Please login again.",
                                 "info")) "login")
        | Some user =>
            messages <- query_messages_of (User.id user) ;;
            ret (session, render_dashboard user messages)
        end
  end.

Definition create_message (session : Session.t) (request : Request)
  : M (Session.t * Response) :=
  match Session.user_id session with
  | None =>
      ret (session,
           redirect (Some ("Please login to create messages.", "info"))
                    "login")
  | Some uid =>
      user <- db_get_user uid ;;
      match user with
      | None =>
          ret (Session.clear,
               redirect (Some ("Session expired. Please login again.",
                               "info")) "login")
      | Some _ =>
          match method request with
          | GET => ret (session, render_template None "create_message.html")
          | POST =>
              match form request "content",
                    form request "recipient_email",
                    form request "delivery_date",
                    form request "delivery_time" with
              | Some content, Some recipient_email,
                Some delivery_date, Some delivery_time =>
                  if is_empty content || is_empty recipient_email
                     || is_empty delivery_date || is_empty delivery_time
                  then
                    ret (session,
                         render_template
                           (Some ("All fields are required!", "error"))
                           "create_message.html")
                  else
                    match strptime E (delivery_date ++ " " ++ delivery_time)
                    with
                    | None =>
                        ret (session,
                             render_template
                               (Some ("Invalid date or time format!",
                                      "error"))
                               "create_message.html")
                    | Some delivery_datetime =>
                        now <- datetime_now ;;
                        if delivery_datetime <=? now then
                          ret (session,
                               render_template
                                 (Some ("Delivery time must be in the future!",
                                        "error"))
                                 "create_message.html")
                        else
                          add_message uid content recipient_email
                                      delivery_datetime ;;
                          ret (session,
                               redirect
                                 (Some ("Time-locked message created successfully!",
                                        "success"))
                                 "dashboard")
                    end
              | _, _, _, _ => ret (session, bad_request)
              end
          end
      end
  end.

(** *** Sequences of core operations *)

Inductive Op :=
| Attempt (message_id : Z)   (* one call of send_time_message *)
| Tick.                      (* one run of check_and_send_messages *)

Definition run_op (o : Op) : M unit :=
  match o with
  | Attempt message_id => send_time_message message_id
  | Tick => check_and_send_messages
  end.

Definition run_ops (ops : list Op) : M unit := for_each ops run_op.

(** Two workers racing on one message: both fetch the row before either
    of them commits. *)
Definition racing_attempts (message_id : Z) : M unit :=
  fetched_a <- query_get message_id ;;
  fetched_b <- query_get message_id ;;
  try_except (deliver_fetched message_id fetched_a) (fun _ => ret tt) ;;
  try_except (deliver_fetched message_id fetched_b) (fun _ => ret tt).

End App.

(** ** Predicates used in the statements *)

(** The world a successful attempt leaves, [m] being the fetched row. *)
Definition delivered_world
  (E : Env) (message_id : Z) (m : TimeMessage.t) (w : World) : World :=
  {| users := users w;
     time_messages :=
       mark_delivered message_id (clock E (clock_reads w)) (time_messages w);
     mail_log := mail_log w ++ [mkSent message_id (render E m) true];
     clock_reads := S (clock_reads w);
     commits := S (commits w) |}.

(** The world an attempt leaves when the mail was accepted and the commit
    raised: the call is logged, the clock was read, the table is as it
    was. *)
Definition uncommitted_world
  (E : Env) (message_id : Z) (m : TimeMessage.t) (w : World) : World :=
  {| users := users w;
     time_messages := time_messages w;
     mail_log := mail_log w ++ [mkSent message_id (render E m) true];
     clock_reads := S (clock_reads w);
     commits := S (commits w) |}.

(** The world an attempt whose [mail.send] raised leaves. *)
Definition failed_world
  (E : Env) (message_id : Z) (m : TimeMessage.t) (w : World) : World :=
  with_mail_log (mail_log w ++ [mkSent message_id (render E m) false]) w.

(** The world after one call of [send_time_message], case by case. *)
Definition after_attempt (E : Env) (message_id : Z) (w : World) : World :=
  match find_message message_id (time_messages w) with
  | None => w
  | Some m =>
      if TimeMessage.delivered m then w
      else if transport E (List.length (mail_log w)) (render E m)
           then if commit_ok E (commits w)
                then delivered_world E message_id m w
                else uncommitted_world E message_id m w
           else failed_world E message_id m w
  end.

(** The world after the loop of a tick over the rows [l]. *)
Definition after_loop (E : Env) (l : list TimeMessage.t) (w : World) : World :=
  fold_left (fun w m => after_attempt E (TimeMessage.id m) w) l w.

(** The columns no core operation writes. *)
Definition same_immutable_fields (r r' : TimeMessage.t) : Prop :=
  TimeMessage.id r' = TimeMessage.id r
  /\ TimeMessage.user_id r' = TimeMessage.user_id r
  /\ TimeMessage.content r' = TimeMessage.content r
  /\ TimeMessage.recipient_email r' = TimeMessage.recipient_email r
  /\ TimeMessage.delivery_datetime r' = TimeMessage.delivery_datetime r
  /\ TimeMessage.created_at r' = TimeMessage.created_at r.

(** A row as [create_message] inserts it. *)
Definition fresh (m : TimeMessage.t) : Prop :=
  TimeMessage.delivered m = false /\ TimeMessage.delivered_at m = None.

Definition coupled (m : TimeMessage.t) : Prop :=
  TimeMessage.delivered m = true <-> TimeMessage.delivered_at m <> None.

Definition monotone_clock (E : Env) : Prop :=
  forall i j : nat, (i <= j)%nat -> clock E i <= clock E j.

(** One row before and after: same key, and a set flag stays set. *)
Definition stays_delivered (r r' : TimeMessage.t) : Prop :=
  TimeMessage.id r' = TimeMessage.id r
  /\ (TimeMessage.delivered r = true -> TimeMessage.delivered r' = true).

(** ** Sample data *)

(** A clock that advances one unit per reading from 100, a transport that
    refuses exactly its third call, commits that all go through, and a
    process started at instant 2. *)
Definition sample_env : Env :=
  {| clock := fun k => 100 + Z.of_nat k;
     transport := fun k _ => negb (Nat.eqb k 2);
     strftime := fun _ => "2024-01-01 00:00:00";
     strptime := fun _ => Some 1000;
     commit_ok := fun _ => true;
     APP_START_TIME := 2 |}.

Definition sample_message (i due : Z) : TimeMessage.t :=
  {| TimeMessage.id := i;
     TimeMessage.user_id := 1;
     TimeMessage.content := "see you then";
     TimeMessage.recipient_email := "friend@example.org";
     TimeMessage.delivery_datetime := due;
     TimeMessage.delivered := false;
     TimeMessage.created_at := 10;
     TimeMessage.delivered_at := None |}.

Definition sample_user : User.t :=
  {| User.id := 1;
     User.username := "ada";
     User.email := "ada@example.org";
     User.password_hash := "pbkdf2";
     User.created_at := 1 |}.

(** Five due messages and one that is due at 500 only. *)
Definition sample_table : list TimeMessage.t :=
  [sample_message 1 50; sample_message 2 60; sample_message 3 70;
   sample_message 4 80; sample_message 5 90; sample_message 6 500].

Definition sample_world : World :=
  {| users := [sample_user];
     time_messages := sample_table;
     mail_log := [];
     clock_reads := 0;
     commits := 0 |}.

(** The sample world after attempts on messages 1 and 2: the transport
    has taken two calls, so that the next one is refused. *)
Definition sample_world_after_two : World :=
  snd (run_ops sample_env [Attempt 1; Attempt 2] sample_world).

(** One message, already delivered at instant 55. *)
Definition delivered_sample : TimeMessage.t :=
  TimeMessage.set_delivered 55 (sample_message 1 50).

Definition delivered_sample_world : World :=
  {| users := [sample_user];
     time_messages := [delivered_sample];
     mail_log := [mkSent 1 (render sample_env (sample_message 1 50)) true];
     clock_reads := 1;
     commits := 1 |}.

(** A session minted by an earlier process (started at instant 1). *)
Definition stale_session : Session.t :=
  {| Session.user_id := Some 1;
     Session.username := Some "ada";
     Session.app_start_time := Some 1 |}.

Definition sample_post : Request :=
  {| method := POST;
     form := fun key =>
       if (key =? "content")%string then Some "hello"
       else if (key =? "recipient_email")%string then Some "friend@example.org"
       else if (key =? "delivery_date")%string then Some "2030-01-01"
       else if (key =? "delivery_time")%string then Some "12:00"
       else None |}.

(** ** Accounts, the remaining routes and the scheduler singleton *)

(** [werkzeug.security]: the two hashing functions the [User] methods call.
    The salt [generate_password_hash] draws is part of the environment: the
    function stands for one choice of salts. *)
Record Auth := mkAuth {
  generate_password_hash : string -> string;
  check_password_hash : string -> string -> bool   (* pwhash, password *)
}.

Definition with_users (tbl : list User.t) (w : World) : World :=
  {| users := tbl; time_messages := time_messages w;
     mail_log := mail_log w; clock_reads := clock_reads w;
     commits := commits w |}.

(** [User.query.filter_by(username=username).first()] *)
Definition find_by_username (username : string) (tbl : list User.t)
  : option User.t :=
  find (fun u => (User.username u =? username)%string) tbl.

(** [User.query.filter_by(email=email).first()] *)
Definition find_by_email (email : string) (tbl : list User.t)
  : option User.t :=
  find (fun u => (User.email u =? email)%string) tbl.

(** The key the database gives a new user row. *)
Definition next_user_id (tbl : list User.t) : Z :=
  1 + fold_right Z.max 0 (map User.id tbl).

Section Accounts.

Variable E : Env.
Variable A : Auth.

(** [User.set_password] *)
Definition set_password (user : User.t) (password : string) : User.t :=
  {| User.id := User.id user;
     User.username := User.username user;
     User.email := User.email user;
     User.password_hash := generate_password_hash A password;
     User.created_at := User.created_at user |}.

(** [User.check_password] *)
Definition check_password (user : User.t) (password : string) : bool :=
  check_password_hash A (User.password_hash user) password.

Definition query_user_by_username (username : string) : M (option User.t) :=
  fun w => (Ok (find_by_username username (users w)), w).

Definition query_user_by_email (email : string) : M (option User.t) :=
  fun w => (Ok (find_by_email email (users w)), w).

(** [user = User(username=..., email=...); user.set_password(password);
    db.session.add(user); db.session.commit()]: the key and [created_at]
    are filled in at the insert. *)
Definition add_user (username email password : string) : M unit :=
  created <- datetime_now E ;;
  db_session_commit E
    (fun w =>
       with_users
         (users w ++
          [set_password
             {| User.id := next_user_id (users w);
                User.username := username;
                User.email := email;
                User.password_hash := "";
                User.created_at := created |}
             password]) w).

Definition index (session : Session.t) : Response :=
  match Session.user_id session with
  | Some _ => redirect None "dashboard"
  | None => render_template None "index.html"
  end.

Definition register (request : Request) : M Response :=
  match method request with
  | POST =>
      match form request "username",
            form request "email",
            form request "password" with
      | Some username, Some email, Some password =>
          if is_empty username || is_empty email || is_empty password
          then
            ret (render_template
                   (Some ("All fields are required!", "error"))
                   "register.html")
          else
            by_name <- query_user_by_username username ;;
            match by_name with
            | Some _ =>
                ret (render_template
                       (Some ("Username already exists!", "error"))
                       "register.html")
            | None =>
                by_email <- query_user_by_email email ;;
                match by_email with
                | Some _ =>
                    ret (render_template
                           (Some ("Email already registered!", "error"))
                           "register.html")
                | None =>
                    add_user username email password ;;
                    ret (redirect
                           (Some ("Registration successful! Please login.",
                                  "success")) "login")
                end
            end
      | _, _, _ => ret bad_request
      end
  | GET => ret (render_template None "register.html")
  end.

Definition login (session : Session.t) (request : Request)
  : M (Session.t * Response) :=
  match method request with
  | POST =>
      match form request "username", form request "password" with
      | Some username, Some password =>
          user <- query_user_by_username username ;;
          match user with
          | Some user =>
              if check_password user password then
                ret ({| Session.user_id := Some (User.id user);
                        Session.username := Some (User.username user);
                        Session.app_start_time := Some (APP_START_TIME E) |},
                     redirect (Some ("Login successful!", "success"))
                              "dashboard")
              else
                ret (session,
                     render_template
                       (Some ("Invalid username or password!", "error"))
                       "login.html")
          | None =>
              ret (session,
                   render_template
                     (Some ("Invalid username or password!", "error"))
                     "login.html")
          end
      | _, _ => ret (session, bad_request)
      end
  | GET => ret (session, render_template None "login.html")
  end.

Definition logout (session : Session.t) : Session.t * Response :=
  (Session.clear,
   redirect (Some ("You have been logged out.", "info")) "index").

End Accounts.

(** [apscheduler]: a scheduler is its job list and whether it runs. *)
Record Job := mkJob {
  func : Op;
  trigger : string;
  minutes : Z;
  job_id : string
}.

Record Scheduler := mkScheduler {
  jobs : list Job;
  running : bool
}.

(** [BackgroundScheduler()] *)
Definition BackgroundScheduler : Scheduler :=
  {| jobs := []; running := false |}.

Definition add_job (j : Job) (s : Scheduler) : Scheduler :=
  {| jobs := jobs s ++ [j]; running := running s |}.

Definition start (s : Scheduler) : Scheduler :=
  {| jobs := jobs s; running := true |}.

(** [init_scheduler], on the value of the global [scheduler]. *)
Definition init_scheduler (scheduler : option Scheduler) : option Scheduler :=
  match scheduler with
  | None =>
      Some (start
              (add_job {| func := Tick; trigger := "interval";
                          minutes := 1; job_id := "message_checker" |}
                       BackgroundScheduler))
  | Some s => Some s
  end.

(** ** Further predicates *)

(** The ids of the messages for which a call of [mail.send] was accepted,
    in call order. *)
Definition accepted_ids (log : list Sent) : list Z :=
  map for_message (filter accepted log).

(** Every accepted call in the log is for a message that the table holds
    as delivered. *)
Definition log_consistent (w : World) : Prop :=
  forall s, In s (mail_log w) -> accepted s = true ->
    exists m, find_message (for_message s) (time_messages w) = Some m
              /\ TimeMessage.delivered m = true.

(** [created_at] descending along the list. *)
Fixpoint sorted_desc (l : list TimeMessage.t) : Prop :=
  match l with
  | [] => True
  | x :: rest =>
      (forall y, In y rest ->
                 TimeMessage.created_at y <= TimeMessage.created_at x)
      /\ sorted_desc rest
  end.

(** The uniqueness constraints on [user.username] and [user.email]. *)
Definition UniqueUsers (tbl : list User.t) : Prop :=
  NoDup (map User.username tbl) /\ NoDup (map User.email tbl).

(** The contract of [werkzeug.security]: a hash checks against the
    password it was generated from. *)
Definition hash_contract (A : Auth) : Prop :=
  forall password,
    check_password_hash A (generate_password_hash A password) password = true.

(** Every call in the later log is an earlier one, or was made for a row
    the earlier table held as undelivered, with the mail rendered from that
    row; the tables correspond row by row. *)
Definition mailed_from (E : Env) (w w' : World) : Prop :=
  Forall2 (fun r r' => same_immutable_fields r r' /\ stays_delivered r r')
          (time_messages w) (time_messages w')
  /\ forall s, In s (mail_log w') ->
       In s (mail_log w)
       \/ exists m, In m (time_messages w)
                    /\ TimeMessage.delivered m = false
                    /\ for_message s = TimeMessage.id m
                    /\ mail s = render E m.

(** ** Further sample data *)

Definition sample_auth : Auth :=
  {| generate_password_hash := fun p => ("h:" ++ p)%string;
     check_password_hash := fun h p => (h =? "h:" ++ p)%string |}.

Definition sample_form (fields : list (string * string))
  : string -> option string :=
  fun key =>
    option_map snd (find (fun kv => (fst kv =? key)%string) fields).

Definition register_bob : Request :=
  {| method := POST;
     form := sample_form [("username", "bob"); ("email", "bob@example.org");
                          ("password", "s3cret")] |}.

Definition login_bob : Request :=
  {| method := POST;
     form := sample_form [("username", "bob"); ("password", "s3cret")] |}.

Definition live_session : Session.t :=
  {| Session.user_id := Some 1;
     Session.username := Some "ada";
     Session.app_start_time := Some 2 |}.

(** The sample world after bob has registered. *)
Definition registered_world : World :=
  snd (register sample_env sample_auth register_bob sample_world).

(** The sample environment after a restart of the process at instant 3. *)
Definition restarted_env : Env :=
  {| clock := clock sample_env;
     transport := transport sample_env;
     strftime := strftime sample_env;
     strptime := strptime sample_env;
     commit_ok := commit_ok sample_env;
     APP_START_TIME := 3 |}.



(** A transport that accepts every call, and a database whose first commit
    raises. *)
Definition first_commit_fails_env : Env :=
  {| clock := clock sample_env;
     transport := fun _ _ => true;
     strftime := strftime sample_env;
     strptime := strptime sample_env;
     commit_ok := fun k => negb (Nat.eqb k 0);
     APP_START_TIME := 2 |}.

(** Every commit of the run goes through. *)
Definition reliable_commits (E : Env) : Prop :=
  forall k, commit_ok E k = true.

(** * Properties *)

(** ** The message table *)

Section Table.

Implicit Types (tbl : list TimeMessage.t) (m : TimeMessage.t).

Lemma find_message_id k tbl m :
  find_message k tbl = Some m -> TimeMessage.id m = k.
Proof.
  unfold find_message. intros H.
  apply find_some in H. destruct H as [_ H]. now apply Z.eqb_eq.
Qed.

Lemma find_message_In k tbl m :
  find_message k tbl = Some m -> In m tbl.
Proof.
  unfold find_message. intros H. now apply find_some in H.
Qed.

Lemma find_message_unique tbl m :
  PrimaryKey tbl -> In m tbl -> find_message (TimeMessage.id m) tbl = Some m.
Proof.
  unfold PrimaryKey, find_message.
  induction tbl as [|r tbl IH]; simpl; intros Hk Hin; [easy|].
  inversion Hk as [|? ? Hnotin Hk']; subst.
  destruct Hin as [->|Hin].
  - now rewrite Z.eqb_refl.
  - destruct (Z.eqb_spec (TimeMessage.id r) (TimeMessage.id m)) as [e|_].
    + exfalso. apply Hnotin. rewrite e. now apply in_map.
    + now apply IH.
Qed.

Lemma mark_delivered_ids k t tbl :
  map TimeMessage.id (mark_delivered k t tbl) = map TimeMessage.id tbl.
Proof.
  unfold mark_delivered. rewrite map_map. apply map_ext.
  intros r. now destruct (TimeMessage.id r =? k).
Qed.

Lemma find_message_mark_same k t tbl :
  find_message k (mark_delivered k t tbl)
  = option_map (TimeMessage.set_delivered t) (find_message k tbl).
Proof.
  unfold find_message, mark_delivered.
  induction tbl as [|r tbl IH]; simpl; [easy|].
  destruct (Z.eqb_spec (TimeMessage.id r) k) as [e|n]; simpl.
  - apply Z.eqb_eq in e. now rewrite e.
  - apply Z.eqb_neq in n. now rewrite n.
Qed.

Lemma find_message_mark_other k k' t tbl :
  k' <> k ->
  find_message k' (mark_delivered k t tbl) = find_message k' tbl.
Proof.
  unfold find_message, mark_delivered. intros Hne.
  induction tbl as [|r tbl IH]; simpl; [easy|].
  destruct (Z.eqb_spec (TimeMessage.id r) k) as [e|n]; simpl.
  - rewrite e. apply Z.eqb_neq in Hne. rewrite Z.eqb_sym in Hne.
    now rewrite Hne.
  - now rewrite IH.
Qed.

Lemma mark_delivered_rows k t tbl :
  Forall2 (fun r r' =>
             r' = if TimeMessage.id r =? k
                  then TimeMessage.set_delivered t r else r)
          tbl (mark_delivered k t tbl).
Proof.
  induction tbl as [|r tbl IH]; simpl; constructor; auto.
Qed.

Lemma pending_at_In now tbl m :
  In m (pending_at now tbl) <->
  In m tbl /\ TimeMessage.delivered m = false
  /\ TimeMessage.delivery_datetime m <= now.
Proof.
  unfold pending_at, is_pending. rewrite filter_In.
  rewrite andb_true_iff, negb_true_iff, Z.leb_le. tauto.
Qed.

Lemma pending_at_ids_NoDup now tbl :
  PrimaryKey tbl -> NoDup (map TimeMessage.id (pending_at now tbl)).
Proof.
  unfold PrimaryKey, pending_at.
  induction tbl as [|r tbl IH]; simpl; intros Hk; [constructor|].
  inversion Hk as [|? ? Hnotin Hk']; subst.
  destruct (is_pending now r); simpl; auto.
  constructor; auto.
  intros Hin. apply Hnotin.
  apply in_map_iff in Hin. destruct Hin as (x & Hx & Hin).
  apply filter_In in Hin. rewrite <- Hx. apply in_map. tauto.
Qed.

End Table.

(** ** The delivery worker, run on a world *)

Section Worker.

Variable E : Env.

Lemma send_time_message_run mid w :
  send_time_message E mid w = (Ok tt, after_attempt E mid w).
Proof.
  unfold send_time_message, after_attempt, try_except, bind, query_get,
    deliver_fetched.
  destruct (find_message mid (time_messages w)) as [m|]; [|reflexivity].
  destruct (TimeMessage.delivered m); [reflexivity|].
  unfold bind, mail_send, datetime_now, commit_delivered, db_session_commit,
    delivered_world, uncommitted_world, failed_world.
  destruct (transport E (List.length (mail_log w)) (render E m));
    [|reflexivity].
  simpl. destruct (commit_ok E (commits w)); reflexivity.
Qed.

Lemma for_each_send_run l w :
  for_each l (fun m => send_time_message E (TimeMessage.id m)) w
  = (Ok tt, after_loop E l w).
Proof.
  unfold after_loop. revert w.
  induction l as [|m l IH]; intros w; simpl; [reflexivity|].
  unfold bind. rewrite send_time_message_run. apply IH.
Qed.

Lemma check_and_send_messages_run w :
  check_and_send_messages E w
  = (Ok tt,
     after_loop E
       (pending_at (clock E (clock_reads w)) (time_messages w))
       (with_clock_reads (S (clock_reads w)) w)).
Proof.
  unfold check_and_send_messages, try_except, bind, datetime_now,
    query_pending.
  simpl. now rewrite for_each_send_run.
Qed.

(** *** One attempt *)

Lemma after_attempt_noop mid w :
  (forall m, find_message mid (time_messages w) = Some m ->
             TimeMessage.delivered m = true) ->
  after_attempt E mid w = w.
Proof.
  unfold after_attempt. intros H.
  destruct (find_message mid (time_messages w)) as [m|]; [|reflexivity].
  now rewrite (H m eq_refl).
Qed.

Lemma after_attempt_users mid w :
  users (after_attempt E mid w) = users w.
Proof.
  unfold after_attempt.
  destruct (find_message mid (time_messages w)) as [m|]; [|reflexivity].
  destruct (TimeMessage.delivered m); [reflexivity|].
  destruct (transport E _ _); [|reflexivity].
  now destruct (commit_ok E _).
Qed.

Lemma after_attempt_table mid w :
  time_messages (after_attempt E mid w) = time_messages w
  \/ exists m,
       find_message mid (time_messages w) = Some m
       /\ TimeMessage.delivered m = false
       /\ transport E (List.length (mail_log w)) (render E m) = true
       /\ time_messages (after_attempt E mid w)
          = mark_delivered mid (clock E (clock_reads w)) (time_messages w).
Proof.
  unfold after_attempt.
  destruct (find_message mid (time_messages w)) as [m|] eqn:Hf; [|now left].
  destruct (TimeMessage.delivered m) eqn:Hd; [now left|].
  destruct (transport E _ _) eqn:Ht; [|now left].
  destruct (commit_ok E _); [|now left].
  right. exists m. auto.
Qed.

Lemma after_attempt_find_other mid k w :
  k <> mid ->
  find_message k (time_messages (after_attempt E mid w))
  = find_message k (time_messages w).
Proof.
  intros Hne. destruct (after_attempt_table mid w) as [->|(m & _ & _ & _ & ->)].
  - reflexivity.
  - now apply find_message_mark_other.
Qed.

Lemma after_attempt_log mid w :
  mail_log (after_attempt E mid w) = mail_log w
  \/ exists m,
       find_message mid (time_messages w) = Some m
       /\ TimeMessage.delivered m = false
       /\ mail_log (after_attempt E mid w)
          = mail_log w ++
            [mkSent mid (render E m)
                    (transport E (List.length (mail_log w)) (render E m))].
Proof.
  unfold after_attempt.
  destruct (find_message mid (time_messages w)) as [m|] eqn:Hf; [|now left].
  destruct (TimeMessage.delivered m) eqn:Hd; [now left|].
  right. exists m. repeat split; auto.
  destruct (transport E _ _) eqn:Ht; [|reflexivity].
  now destruct (commit_ok E _).
Qed.

Lemma after_attempt_reads mid w :
  (clock_reads w <= clock_reads (after_attempt E mid w))%nat.
Proof.
  unfold after_attempt.
  destruct (find_message mid (time_messages w)) as [m|]; [|lia].
  destruct (TimeMessage.delivered m); [lia|].
  destruct (transport E _ _); [|simpl; lia].
  destruct (commit_ok E _); simpl; lia.
Qed.

Lemma after_attempt_commits mid w :
  (commits w <= commits (after_attempt E mid w))%nat.
Proof.
  unfold after_attempt.
  destruct (find_message mid (time_messages w)) as [m|]; [|lia].
  destruct (TimeMessage.delivered m); [lia|].
  destruct (transport E _ _); [|simpl; lia].
  destruct (commit_ok E _); simpl; lia.
Qed.

End Worker.

(** ** Properties of one delivery attempt *)

Section Attempt.

Variable E : Env.

(** C3. Idempotent re-dispatch: an attempt on an id that is not in the
    table, or on a message whose [delivered] flag is set, returns with the
    world as it was: no call of [mail.send] is logged, no row is written
    (so [delivered_at] keeps its value) and the clock is not read. *)
Theorem send_time_message_redispatch_noop mid w :
  (find_message mid (time_messages w) = None
   \/ exists m, find_message mid (time_messages w) = Some m
                /\ TimeMessage.delivered m = true) ->
  send_time_message E mid w = (Ok tt, w).
Proof.
  intros H. rewrite send_time_message_run. f_equal.
  apply after_attempt_noop. intros m Hm.
  destruct H as [H|(m' & H & Hd)]; congruence.
Qed.

(** C4. Atomicity on transport failure: when [mail.send] raises for an
    undelivered message, the attempt returns normally, the failed call is
    the only trace, the table is unchanged in every row and field, and
    the message is returned by the pending query at every instant from its
    delivery time on. *)
Theorem send_time_message_transport_failure mid w m :
  find_message mid (time_messages w) = Some m ->
  TimeMessage.delivered m = false ->
  transport E (List.length (mail_log w)) (render E m) = false ->
  let w' := snd (send_time_message E mid w) in
  fst (send_time_message E mid w) = Ok tt
  /\ mail_log w' = mail_log w ++ [mkSent mid (render E m) false]
  /\ time_messages w' = time_messages w
  /\ find_message mid (time_messages w') = Some m
  /\ forall now, TimeMessage.delivery_datetime m <= now ->
                 In m (pending_at now (time_messages w')).
Proof.
  intros Hf Hd Ht. rewrite send_time_message_run. simpl.
  unfold after_attempt. rewrite Hf, Hd, Ht. simpl.
  repeat split; auto.
  intros now Hnow. apply pending_at_In.
  split; [now apply find_message_In in Hf | auto].
Qed.

(** Frame of any attempt: no row is added or removed, the immutable
    columns of every row are kept, and rows of other keys are untouched. *)
Lemma after_attempt_frame mid w :
  Forall2 (fun r r' => same_immutable_fields r r'
                       /\ (TimeMessage.id r <> mid -> r' = r))
          (time_messages w) (time_messages (after_attempt E mid w)).
Proof.
  destruct (after_attempt_table E mid w) as [->|(m & _ & _ & _ & ->)].
  - induction (time_messages w); constructor; auto.
    unfold same_immutable_fields. tauto.
  - eapply Forall2_impl; [|apply mark_delivered_rows].
    intros r r' ->. unfold same_immutable_fields.
    destruct (Z.eqb_spec (TimeMessage.id r) mid); simpl; tauto.
Qed.

(** C8. Frame of a successful delivery: when the fetched row is
    undelivered and [mail.send] accepts the mail, the table keeps its rows
    one for one, every row keeps [id], [user_id], [content],
    [recipient_email], [delivery_datetime] and [created_at], every row of
    another key is unchanged, the target row differs from the fetched one
    in [delivered] and [delivered_at] only (and not at all when the commit
    raised), and the user table is unchanged. *)
Theorem send_time_message_success_frame mid w m :
  find_message mid (time_messages w) = Some m ->
  TimeMessage.delivered m = false ->
  transport E (List.length (mail_log w)) (render E m) = true ->
  let w' := snd (send_time_message E mid w) in
  Forall2 (fun r r' => same_immutable_fields r r'
                       /\ (TimeMessage.id r <> mid -> r' = r))
          (time_messages w) (time_messages w')
  /\ find_message mid (time_messages w')
     = Some (if commit_ok E (commits w)
             then TimeMessage.set_delivered (clock E (clock_reads w)) m
             else m)
  /\ users w' = users w.
Proof.
  intros Hf Hd Ht. rewrite send_time_message_run. simpl.
  split; [apply after_attempt_frame|].
  split; [|apply after_attempt_users].
  unfold after_attempt. rewrite Hf, Hd, Ht.
  destruct (commit_ok E (commits w)); simpl.
  - now rewrite find_message_mark_same, Hf.
  - exact Hf.
Qed.

End Attempt.

(** ** The loop of a tick *)

Section Loop.

Variable E : Env.

Lemma primary_key_injective tbl a b :
  PrimaryKey tbl -> In a tbl -> In b tbl ->
  TimeMessage.id a = TimeMessage.id b -> a = b.
Proof.
  intros Hk Ha Hb Hid.
  pose proof (find_message_unique tbl a Hk Ha) as Fa.
  pose proof (find_message_unique tbl b Hk Hb) as Fb.
  rewrite Hid in Fa. congruence.
Qed.

Lemma after_loop_cons a l w :
  after_loop E (a :: l) w
  = after_loop E l (after_attempt E (TimeMessage.id a) w).
Proof. reflexivity. Qed.

Lemma after_loop_find_other l k w :
  (forall m, In m l -> TimeMessage.id m <> k) ->
  find_message k (time_messages (after_loop E l w))
  = find_message k (time_messages w).
Proof.
  revert w. induction l as [|a l IH]; intros w H; [reflexivity|].
  rewrite after_loop_cons, IH by (intros; apply H; now right).
  apply after_attempt_find_other.
  intros e. apply (H a); [now left | auto].
Qed.

Lemma after_loop_reads l w :
  (clock_reads w <= clock_reads (after_loop E l w))%nat.
Proof.
  revert w. induction l as [|a l IH]; intros w; [simpl; lia|].
  rewrite after_loop_cons.
  pose proof (after_attempt_reads E (TimeMessage.id a) w).
  specialize (IH (after_attempt E (TimeMessage.id a) w)). lia.
Qed.

Lemma after_loop_users l w : users (after_loop E l w) = users w.
Proof.
  revert w. induction l as [|a l IH]; intros w; [reflexivity|].
  now rewrite after_loop_cons, IH, after_attempt_users.
Qed.

(** The loop only appends to the log, and every appended call was made for
    one of the rows it iterates over. *)
Lemma after_loop_log l w :
  exists new,
    mail_log (after_loop E l w) = mail_log w ++ new
    /\ Forall (fun s => exists m, In m l /\ for_message s = TimeMessage.id m)
              new.
Proof.
  revert w. induction l as [|a l IH]; intros w.
  - exists []. split; [now rewrite app_nil_r | constructor].
  - rewrite after_loop_cons.
    destruct (IH (after_attempt E (TimeMessage.id a) w)) as (new & Hlog & Hall).
    assert (Hall' : Forall (fun s => exists m, In m (a :: l)
                                     /\ for_message s = TimeMessage.id m) new).
    { eapply Forall_impl; [|exact Hall].
      intros s (m & Hin & Hs). exists m. split; [now right | auto]. }
    destruct (after_attempt_log E (TimeMessage.id a) w)
      as [Hsame|(m & _ & _ & Hext)].
    + exists new. now rewrite Hlog, Hsame.
    + eexists (_ :: new). split.
      * rewrite Hlog, Hext, <- app_assoc. reflexivity.
      * constructor; [|exact Hall'].
        exists a. split; [now left | reflexivity].
Qed.

(** Every row of the loop is attempted once, whatever happens to the
    others, and ends delivered exactly when its own call was accepted and
    its own commit went through. *)
Lemma after_loop_attempts l :
  NoDup (map TimeMessage.id l) ->
  forall w,
    (forall m, In m l ->
       find_message (TimeMessage.id m) (time_messages w) = Some m
       /\ TimeMessage.delivered m = false) ->
    forall m, In m l ->
      exists k j c,
        (List.length (mail_log w) <= k)%nat
        /\ (clock_reads w <= j)%nat
        /\ (commits w <= c)%nat
        /\ nth_error (mail_log (after_loop E l w)) k
           = Some (mkSent (TimeMessage.id m) (render E m)
                          (transport E k (render E m)))
        /\ find_message (TimeMessage.id m) (time_messages (after_loop E l w))
           = Some (if transport E k (render E m) && commit_ok E c
                   then TimeMessage.set_delivered (clock E j) m else m).
Proof.
  induction l as [|a l IH]; intros Hnd w Hpre m Hin; [easy|].
  simpl in Hnd. inversion Hnd as [|? ? Hnotin Hnd']; subst.
  rewrite after_loop_cons.
  set (w1 := after_attempt E (TimeMessage.id a) w).
  assert (Hother : forall x, In x l -> TimeMessage.id x <> TimeMessage.id a).
  { intros x Hx e. apply Hnotin. rewrite <- e. now apply in_map. }
  destruct Hin as [->|Hin].
  - destruct (Hpre m (or_introl eq_refl)) as [Hf Hd].
    exists (List.length (mail_log w)), (clock_reads w), (commits w).
    split; [lia|]. split; [lia|]. split; [lia|].
    destruct (after_loop_log l w1) as (new & Hlog & _).
    rewrite Hlog, (after_loop_find_other l _ w1 Hother).
    subst w1. unfold after_attempt. rewrite Hf, Hd.
    destruct (transport E (List.length (mail_log w)) (render E m));
      [destruct (commit_ok E (commits w))|]; simpl.
    + split.
      * rewrite <- app_assoc. simpl.
        now rewrite nth_error_app2, Nat.sub_diag by lia.
      * now rewrite find_message_mark_same, Hf.
    + split; [|exact Hf].
      rewrite <- app_assoc. simpl.
      now rewrite nth_error_app2, Nat.sub_diag by lia.
    + split; [|exact Hf].
      rewrite <- app_assoc. simpl.
      now rewrite nth_error_app2, Nat.sub_diag by lia.
  - destruct (IH Hnd' w1) with (m := m)
      as (k & j & c & Hk & Hj & Hc & Hnth & Hfind); [|exact Hin|].
    + intros x Hx. destruct (Hpre x (or_intror Hx)) as [Hf Hd].
      split; [|exact Hd]. subst w1.
      rewrite after_attempt_find_other; [exact Hf | now apply Hother].
    + exists k, j, c. repeat split; auto.
      * assert (List.length (mail_log w) <= List.length (mail_log w1))%nat.
        { subst w1.
          destruct (after_attempt_log E (TimeMessage.id a) w)
            as [->|(x & _ & _ & ->)]; [lia|].
          rewrite length_app. lia. }
        lia.
      * pose proof (after_attempt_reads E (TimeMessage.id a) w).
        subst w1. lia.
      * pose proof (after_attempt_commits E (TimeMessage.id a) w).
        subst w1. lia.
Qed.

End Loop.

(** ** Properties of a scheduler tick *)

Section SchedulerTick.

Variable E : Env.

Lemma pending_rows_fetchable w now :
  PrimaryKey (time_messages w) ->
  forall n m, In m (pending_at now (time_messages w)) ->
    find_message (TimeMessage.id m)
                 (time_messages (with_clock_reads n w)) = Some m
    /\ TimeMessage.delivered m = false.
Proof.
  intros Hk n m Hin. apply pending_at_In in Hin.
  destruct Hin as (Hin & Hd & _). split; [|exact Hd].
  now apply find_message_unique.
Qed.

(** C2. No early delivery: in a tick that captured [now], a message with
    [delivery_datetime > now] keeps its row as it was, and no call of
    [mail.send] made during the tick is for it; every call made during the
    tick is for a row with [delivered = False] and
    [delivery_datetime <= now]. *)
Theorem check_and_send_messages_no_early_delivery w m :
  PrimaryKey (time_messages w) ->
  In m (time_messages w) ->
  clock E (clock_reads w) < TimeMessage.delivery_datetime m ->
  let now := clock E (clock_reads w) in
  let w' := snd (check_and_send_messages E w) in
  find_message (TimeMessage.id m) (time_messages w') = Some m
  /\ exists new,
       mail_log w' = mail_log w ++ new
       /\ Forall (fun s => for_message s <> TimeMessage.id m) new
       /\ Forall (fun s => exists p,
                     In p (time_messages w)
                     /\ for_message s = TimeMessage.id p
                     /\ TimeMessage.delivered p = false
                     /\ TimeMessage.delivery_datetime p <= now) new.
Proof.
  intros Hk Hin Hlate. rewrite check_and_send_messages_run. cbn [snd].
  set (now := clock E (clock_reads w)).
  set (w0 := with_clock_reads (S (clock_reads w)) w).
  assert (Hnot : forall p, In p (pending_at now (time_messages w)) ->
                           TimeMessage.id p <> TimeMessage.id m).
  { intros p Hp e. apply pending_at_In in Hp.
    destruct Hp as (Hp & _ & Hdue).
    rewrite (primary_key_injective _ p m Hk Hp Hin e) in Hdue.
    subst now. lia. }
  split.
  - rewrite after_loop_find_other by exact Hnot.
    now apply find_message_unique.
  - destruct (after_loop_log E (pending_at now (time_messages w)) w0)
      as (new & Hlog & Hall).
    exists new. split; [exact Hlog|]. split.
    + eapply Forall_impl; [|exact Hall].
      intros s (p & Hp & ->). now apply Hnot.
    + eapply Forall_impl; [|exact Hall].
      intros s (p & Hp & ->). exists p.
      apply pending_at_In in Hp. tauto.
Qed.


(** C10. Delivery timestamp lower bound: with a monotone clock, a message
    that a tick turns from undelivered to delivered has a [delivered_at]
    that is at least its [delivery_datetime]. *)
Theorem check_and_send_messages_delivered_at_lower_bound w m m' :
  monotone_clock E ->
  PrimaryKey (time_messages w) ->
  In m (time_messages w) ->
  TimeMessage.delivered m = false ->
  find_message (TimeMessage.id m)
               (time_messages (snd (check_and_send_messages E w))) = Some m' ->
  TimeMessage.delivered m' = true ->
  exists t, TimeMessage.delivered_at m' = Some t
            /\ TimeMessage.delivery_datetime m' <= t.
Proof.
  intros Hmono Hk Hin Hd. rewrite check_and_send_messages_run. cbn [snd].
  set (now := clock E (clock_reads w)).
  intros Hfind Hd'.
  destruct (Z_le_gt_dec (TimeMessage.delivery_datetime m) now) as [Hdue|Hlate].
  - assert (Hp : In m (pending_at now (time_messages w)))
      by (apply pending_at_In; auto).
    destruct (after_loop_attempts E _ (pending_at_ids_NoDup _ _ Hk)
                (with_clock_reads (S (clock_reads w)) w)
                (pending_rows_fetchable w _ Hk _) m Hp)
      as (k & j & c & _ & Hj & _ & _ & Hfind').
    rewrite Hfind' in Hfind. injection Hfind as <-.
    destruct (transport E k (render E m) && commit_ok E c); [|congruence].
    exists (clock E j). split; [reflexivity|]. simpl.
    simpl in Hj. specialize (Hmono (clock_reads w) j ltac:(lia)).
    subst now. lia.
  - rewrite after_loop_find_other in Hfind.
    + simpl in Hfind. rewrite (find_message_unique _ _ Hk Hin) in Hfind.
      congruence.
    + intros p Hp e. apply pending_at_In in Hp.
      destruct Hp as (Hp & _ & Hdue).
      rewrite (primary_key_injective _ p m Hk Hp Hin e) in Hdue. lia.
Qed.

End SchedulerTick.

(** ** Invariants over sequences of core operations *)

Section Invariants.

Variable E : Env.

Lemma run_ops_ok ops w : fst (run_ops E ops w) = Ok tt.
Proof.
  unfold run_ops. revert w.
  induction ops as [|o ops IH]; intros w; [reflexivity|].
  simpl. unfold bind.
  destruct o; simpl.
  - rewrite send_time_message_run. apply IH.
  - rewrite check_and_send_messages_run. apply IH.
Qed.

(** A relation between worlds that is a preorder and is kept by one
    attempt and by one reading of the clock is kept by every sequence of
    attempts and ticks. *)
Lemma run_ops_preserves (R : World -> World -> Prop) :
  (forall w, R w w) ->
  (forall a b c, R a b -> R b c -> R a c) ->
  (forall mid w, R w (after_attempt E mid w)) ->
  (forall n w, R w (with_clock_reads n w)) ->
  forall ops w, R w (snd (run_ops E ops w)).
Proof.
  intros Hrefl Htrans Hstep Hread.
  assert (Hloop : forall l w, R w (after_loop E l w)).
  { induction l as [|a l IH]; intros w; [apply Hrefl|].
    rewrite after_loop_cons. eapply Htrans; [apply Hstep | apply IH]. }
  unfold run_ops.
  induction ops as [|o ops IH]; intros w; [apply Hrefl|].
  simpl. unfold bind. destruct o; simpl.
  - rewrite send_time_message_run.
    eapply Htrans; [apply Hstep | apply IH].
  - rewrite check_and_send_messages_run.
    eapply Htrans; [|apply IH].
    eapply Htrans; [apply Hread | apply Hloop].
Qed.

Lemma stays_delivered_refl tbl : Forall2 stays_delivered tbl tbl.
Proof.
  induction tbl; constructor; auto. unfold stays_delivered. tauto.
Qed.

Lemma stays_delivered_trans a b c :
  Forall2 stays_delivered a b -> Forall2 stays_delivered b c ->
  Forall2 stays_delivered a c.
Proof.
  intros Hab. revert c.
  induction Hab as [|x y a b [Hid Hxy] Hab IH]; intros c Hbc;
    inversion Hbc as [|? z ? c' [Hid' Hyz] Hbc']; subst; constructor.
  - split; [congruence | auto].
  - now apply IH.
Qed.

Lemma mark_delivered_stays k t tbl :
  Forall2 stays_delivered tbl (mark_delivered k t tbl).
Proof.
  eapply Forall2_impl; [|apply mark_delivered_rows].
  intros r r' ->. unfold stays_delivered.
  destruct (TimeMessage.id r =? k); simpl; tauto.
Qed.

(** C7. Monotonicity of the delivered flag: after any sequence of delivery
    attempts and scheduler ticks the table has the same rows, key for key,
    and every row whose [delivered] flag was set still has it set. *)
Theorem delivered_flag_monotone ops w :
  Forall2 stays_delivered
          (time_messages w) (time_messages (snd (run_ops E ops w))).
Proof.
  revert ops w.
  apply (run_ops_preserves
           (fun w w' => Forall2 stays_delivered
                                (time_messages w) (time_messages w'))).
  - intros w. apply stays_delivered_refl.
  - intros a b c. apply stays_delivered_trans.
  - intros mid w.
    destruct (after_attempt_table E mid w) as [->|(m & _ & _ & _ & ->)].
    + apply stays_delivered_refl.
    + apply mark_delivered_stays.
  - intros n w. apply stays_delivered_refl.
Qed.

Lemma fresh_coupled m : fresh m -> coupled m.
Proof.
  unfold fresh, coupled. intros [-> ->]. split; [discriminate | congruence].
Qed.

Lemma mark_delivered_coupled k t tbl :
  Forall coupled tbl -> Forall coupled (mark_delivered k t tbl).
Proof.
  unfold mark_delivered. intros H. apply Forall_map.
  eapply Forall_impl; [|exact H].
  intros r Hr. destruct (TimeMessage.id r =? k); [|exact Hr].
  unfold coupled. simpl. split; [discriminate | reflexivity].
Qed.

Lemma coupled_preserved ops w :
  Forall coupled (time_messages w) ->
  Forall coupled (time_messages (snd (run_ops E ops w))).
Proof.
  revert ops w.
  apply (run_ops_preserves
           (fun w w' => Forall coupled (time_messages w) ->
                        Forall coupled (time_messages w'))); auto.
  intros mid w H.
  destruct (after_attempt_table E mid w) as [->|(m & _ & _ & _ & ->)];
    [exact H | now apply mark_delivered_coupled].
Qed.

(** C9. Coupling of [delivered] and [delivered_at]: from a table of
    freshly created rows ([delivered = False], [delivered_at] null), after
    any sequence of delivery attempts and ticks, every row has
    [delivered = True] if and only if its [delivered_at] is not null. *)
Theorem delivered_iff_delivered_at ops w :
  Forall fresh (time_messages w) ->
  Forall coupled (time_messages (snd (run_ops E ops w))).
Proof.
  intros H. apply coupled_preserved.
  eapply Forall_impl; [|exact H]. apply fresh_coupled.
Qed.

End Invariants.

(** ** The update that records a delivery *)

Section RecordedDelivery.

Variable E : Env.

(** A delivered row is left alone by every sequence of attempts and ticks,
    and no call of [mail.send] is made for it. *)
Lemma delivered_row_kept mid m ops w :
  TimeMessage.delivered m = true ->
  find_message mid (time_messages w) = Some m ->
  find_message mid (time_messages (snd (run_ops E ops w))) = Some m
  /\ exists new,
       mail_log (snd (run_ops E ops w)) = mail_log w ++ new
       /\ Forall (fun s => for_message s <> mid) new.
Proof.
  intros Hd. revert ops w.
  apply (run_ops_preserves E
           (fun w w' =>
              find_message mid (time_messages w) = Some m ->
              find_message mid (time_messages w') = Some m
              /\ exists new,
                   mail_log w' = mail_log w ++ new
                   /\ Forall (fun s => for_message s <> mid) new)).
  - intros w Hf. split; [exact Hf|].
    exists []. split; [now rewrite app_nil_r | constructor].
  - intros a b c Hab Hbc Hf.
    destruct (Hab Hf) as (Hfb & n1 & Hl1 & Ha1).
    destruct (Hbc Hfb) as (Hfc & n2 & Hl2 & Ha2).
    split; [exact Hfc|]. exists (n1 ++ n2). split.
    + now rewrite Hl2, Hl1, app_assoc.
    + apply Forall_app. now split.
  - intros k w Hf. destruct (Z.eq_dec k mid) as [->|Hne].
    + rewrite after_attempt_noop.
      * split; [exact Hf|].
        exists []. split; [now rewrite app_nil_r | constructor].
      * intros m' Hm'. congruence.
    + split; [now rewrite after_attempt_find_other by congruence|].
      destruct (after_attempt_log E k w) as [->|(x & _ & _ & ->)].
      * exists []. split; [now rewrite app_nil_r | constructor].
      * eexists. split; [reflexivity|]. now repeat constructor.
  - intros n w Hf. split; [exact Hf|].
    exists []. simpl. split; [now rewrite app_nil_r | constructor].
Qed.

(** C1 (as the code has it). The update that records a delivery is an
    unconditional write by primary key. It has no conflict result: it
    returns normally when its commit goes through and raises when the
    commit raises, writing nothing. When the commit goes through on a row
    that is already delivered, the row is written again, with
    [delivered_at] the given instant. The flag is tested once, on the row
    the worker fetched: over any sequence of delivery attempts and ticks
    run one after the other, a row that is delivered is never written
    again (it keeps its [delivered_at]) and no call of [mail.send] is made
    for it. *)
Theorem commit_delivered_unconditional ops mid now w m :
  find_message mid (time_messages w) = Some m ->
  TimeMessage.delivered m = true ->
  fst (commit_delivered E mid now w)
  = (if commit_ok E (commits w) then Ok tt else Raised CommitError)
  /\ find_message mid (time_messages (snd (commit_delivered E mid now w)))
     = Some (if commit_ok E (commits w)
             then TimeMessage.set_delivered now m else m)
  /\ find_message mid (time_messages (snd (run_ops E ops w))) = Some m
  /\ exists new,
       mail_log (snd (run_ops E ops w)) = mail_log w ++ new
       /\ Forall (fun s => for_message s <> mid) new.
Proof.
  intros Hf Hd.
  unfold commit_delivered, db_session_commit.
  destruct (commit_ok E (commits w)); simpl.
  - split; [reflexivity|]. rewrite find_message_mark_same, Hf.
    split; [reflexivity|]. now apply delivered_row_kept.
  - split; [reflexivity|]. split; [exact Hf|].
    now apply delivered_row_kept.
Qed.

End RecordedDelivery.

(** ** The session guard *)

Section SessionGuard.

Variable E : Env.

(** [dashboard] does consult the guard: a session whose stamp is not the
    live [APP_START_TIME] is cleared and sent to the login page, and the
    world is left as it was. *)
Lemma dashboard_rejects_stale_session session w :
  is_session_valid E session = false ->
  dashboard E session w
  = (Ok (Session.clear,
         redirect (Some ("Please login to access dashboard.", "info"))
                  "login"), w).
Proof.
  unfold dashboard. intros ->.
  now destruct (Session.user_id session).
Qed.

(** [create_message] never reads the stamp: its outcome is the same for
    any two sessions that agree on [user_id] and [username]. *)
Lemma create_message_ignores_stamp uid name t t' request w :
  let s := {| Session.user_id := uid; Session.username := name;
              Session.app_start_time := t |} in
  let s' := {| Session.user_id := uid; Session.username := name;
               Session.app_start_time := t' |} in
  snd (create_message E s request w) = snd (create_message E s' request w).
Proof.
  unfold create_message, bind, db_get_user, ret; simpl.
  destruct uid as [uid|]; [|reflexivity].
  destruct (find_user uid (users w)); [|reflexivity].
  destruct (method request); [reflexivity|].
  destruct (form request "content"); [|reflexivity].
  destruct (form request "recipient_email"); [|reflexivity].
  destruct (form request "delivery_date"); [|reflexivity].
  destruct (form request "delivery_time"); [|reflexivity].
  destruct (_ || _ || _ || _); [reflexivity|].
  destruct (strptime E _); [|reflexivity].
  unfold datetime_now. destruct (_ <=? _); [reflexivity|].
  unfold add_message, bind, datetime_now, db_session_commit. simpl.
  destruct (commit_ok E _); reflexivity.
Qed.

End SessionGuard.

(** C5, on the code. With a session stamped by an earlier process,
    [dashboard] rejects the request, but [create_message] honours it: the
    POST is answered with the success redirect and a new row is in the
    table. *)
Theorem create_message_honours_stale_session :
  is_session_valid sample_env stale_session = false
  /\ fst (dashboard sample_env stale_session sample_world)
     = Ok (Session.clear,
           redirect (Some ("Please login to access dashboard.", "info"))
                    "login")
  /\ fst (create_message sample_env stale_session sample_post sample_world)
     = Ok (stale_session,
           redirect (Some ("Time-locked message created successfully!",
                           "success")) "dashboard")
  /\ time_messages
       (snd (create_message sample_env stale_session sample_post
                            sample_world))
     = sample_table ++
       [{| TimeMessage.id := 7;
           TimeMessage.user_id := 1;
           TimeMessage.content := "hello";
           TimeMessage.recipient_email := "friend@example.org";
           TimeMessage.delivery_datetime := 1000;
           TimeMessage.delivered := false;
           TimeMessage.created_at := 101;
           TimeMessage.delivered_at := None |}].
Proof. repeat split. Qed.

(** C1, as the specification states it, fails on the code: committing a
    delivery for a message that is already delivered succeeds and replaces
    its [delivered_at]. *)
Lemma commit_delivered_overwrites :
  find_message 1 (time_messages delivered_sample_world) = Some delivered_sample
  /\ TimeMessage.delivered delivered_sample = true
  /\ TimeMessage.delivered_at delivered_sample = Some 55
  /\ fst (commit_delivered sample_env 1 99 delivered_sample_world) = Ok tt
  /\ time_messages
       (snd (commit_delivered sample_env 1 99 delivered_sample_world))
     = [TimeMessage.set_delivered 99 (sample_message 1 50)]
  /\ time_messages
       (snd (commit_delivered sample_env 1 99 delivered_sample_world))
     <> time_messages delivered_sample_world.
Proof.
  repeat split; try reflexivity. discriminate.
Qed.

(** The write is reached on a delivered row when two workers fetch the row
    before either commits: both mails go out and the second commit replaces
    the [delivered_at] of the first. *)
Example racing_attempts_deliver_twice :
  let w0 := with_time_messages [sample_message 1 50] sample_world in
  let w := snd (racing_attempts sample_env 1 w0) in
  map accepted (mail_log w) = [true; true]
  /\ map for_message (mail_log w) = [1; 1]
  /\ time_messages w = [TimeMessage.set_delivered 101 (sample_message 1 50)].
Proof. repeat split. Qed.

Lemma send_time_message_redispatch_noop_witness :
  send_time_message sample_env 1 delivered_sample_world
  = (Ok tt, delivered_sample_world)
  /\ send_time_message sample_env 8 sample_world = (Ok tt, sample_world).
Proof.
  split.
  - apply send_time_message_redispatch_noop. right.
    exists delivered_sample. split; reflexivity.
  - apply send_time_message_redispatch_noop. left. reflexivity.
Defined.

Lemma send_time_message_transport_failure_witness :
  let w := sample_world_after_two in
  let w' := snd (send_time_message sample_env 3 w) in
  List.length (mail_log w') = 3%nat
  /\ time_messages w' = time_messages w
  /\ In (sample_message 3 70) (pending_at 103 (time_messages w')).
Proof.
  destruct (send_time_message_transport_failure
              sample_env 3 sample_world_after_two (sample_message 3 70)
              eq_refl eq_refl eq_refl)
    as (_ & Hlog & Htbl & _ & Hdue).
  split; [now rewrite Hlog|]. split; [exact Htbl|].
  apply Hdue. simpl. lia.
Defined.

Lemma send_time_message_success_frame_witness :
  let w' := snd (send_time_message sample_env 1 sample_world) in
  find_message 1 (time_messages w')
  = Some (TimeMessage.set_delivered 100 (sample_message 1 50))
  /\ users w' = [sample_user].
Proof.
  destruct (send_time_message_success_frame
              sample_env 1 sample_world (sample_message 1 50)
              eq_refl eq_refl eq_refl)
    as (_ & Hrow & Husers).
  split; [exact Hrow | exact Husers].
Defined.

Lemma check_and_send_messages_no_early_delivery_witness :
  find_message 6
    (time_messages (snd (check_and_send_messages sample_env sample_world)))
  = Some (sample_message 6 500).
Proof.
  apply (check_and_send_messages_no_early_delivery
           sample_env sample_world (sample_message 6 500)).
  - unfold PrimaryKey. simpl.
    repeat constructor; simpl; intuition discriminate.
  - simpl. tauto.
  - simpl. lia.
Defined.



(** A commit that raises after an accepted mail leaves the message
    pending, and the next tick mails it again. *)
Example commit_failure_mails_again :
  let w0 := with_time_messages [sample_message 1 50] sample_world in
  let w1 := snd (check_and_send_messages first_commit_fails_env w0) in
  let w2 := snd (check_and_send_messages first_commit_fails_env w1) in
  time_messages w1 = [sample_message 1 50]
  /\ accepted_ids (mail_log w1) = [1]
  /\ accepted_ids (mail_log w2) = [1; 1]
  /\ map TimeMessage.delivered (time_messages w2) = [true].
Proof. repeat split. Qed.

Lemma commit_delivered_unconditional_witness :
  find_message 1
    (time_messages
       (snd (commit_delivered sample_env 1 99 delivered_sample_world)))
  = Some (TimeMessage.set_delivered 99 delivered_sample)
  /\ find_message 1
       (time_messages
          (snd (run_ops sample_env [Tick; Attempt 1; Tick]
                        delivered_sample_world)))
     = Some delivered_sample.
Proof.
  destruct (commit_delivered_unconditional
              sample_env [Tick; Attempt 1; Tick] 1 99 delivered_sample_world
              delivered_sample eq_refl eq_refl)
    as (_ & Hwrite & Hkept & _).
  split; [exact Hwrite | exact Hkept].
Defined.

Lemma check_and_send_messages_delivered_at_lower_bound_witness :
  exists t,
    TimeMessage.delivered_at
      (TimeMessage.set_delivered 101 (sample_message 1 50)) = Some t
    /\ 50 <= t.
Proof.
  apply (check_and_send_messages_delivered_at_lower_bound
           sample_env sample_world (sample_message 1 50)
           (TimeMessage.set_delivered 101 (sample_message 1 50))).
  - intros i j Hij. unfold sample_env, clock. lia.
  - unfold PrimaryKey. simpl.
    repeat constructor; simpl; intuition discriminate.
  - simpl. tauto.
  - reflexivity.
  - reflexivity.
  - reflexivity.
Defined.

Lemma delivered_iff_delivered_at_witness :
  Forall coupled
    (time_messages
       (snd (run_ops sample_env [Tick; Attempt 3; Tick] sample_world))).
Proof.
  apply (delivered_iff_delivered_at
           sample_env [Tick; Attempt 3; Tick] sample_world).
  simpl. repeat constructor.
Defined.

(** The scenario of the specification: five due messages, the transport
    refusing the third call. After the tick, messages 1, 2, 4 and 5 are
    delivered, message 3 is still pending, and message 6 (not yet due) is
    untouched; the next tick delivers message 3. *)
Example five_due_third_call_refused :
  let w1 := snd (check_and_send_messages sample_env sample_world) in
  let w2 := snd (check_and_send_messages sample_env w1) in
  map TimeMessage.delivered (time_messages w1)
  = [true; true; false; true; true; false]
  /\ map for_message (mail_log w1) = [1; 2; 3; 4; 5]
  /\ map accepted (mail_log w1) = [true; true; false; true; true]
  /\ map TimeMessage.delivered_at (time_messages w1)
     = [Some 101; Some 102; None; Some 103; Some 104; None]
  /\ map TimeMessage.delivered (time_messages w2)
     = [true; true; true; true; true; false]
  /\ map for_message (mail_log w2) = [1; 2; 3; 4; 5; 3].
Proof. repeat split. Qed.

(** * Further properties of the delivery engine *)

Section Engine.

Variable E : Env.

Lemma accepted_ids_app l l' :
  accepted_ids (l ++ l') = accepted_ids l ++ accepted_ids l'.
Proof. unfold accepted_ids. now rewrite filter_app, map_app. Qed.

Lemma accepted_ids_In k log :
  In k (accepted_ids log) <->
  exists s, In s log /\ accepted s = true /\ for_message s = k.
Proof.
  unfold accepted_ids. rewrite in_map_iff. split.
  - intros (s & Hs & Hin). apply filter_In in Hin. exists s. tauto.
  - intros (s & Hin & Ha & Hs). exists s. split; [exact Hs|].
    apply filter_In. tauto.
Qed.

Lemma after_attempt_at_most_once mid w :
  reliable_commits E ->
  NoDup (accepted_ids (mail_log w)) /\ log_consistent w ->
  NoDup (accepted_ids (mail_log (after_attempt E mid w)))
  /\ log_consistent (after_attempt E mid w).
Proof.
  intros Hcommit [Hnd Hc]. unfold after_attempt.
  destruct (find_message mid (time_messages w)) as [m|] eqn:Hf; [|auto].
  destruct (TimeMessage.delivered m) eqn:Hd; [auto|].
  rewrite Hcommit.
  destruct (transport E _ _) eqn:Ht.
  - unfold delivered_world, log_consistent. simpl. split.
    + rewrite accepted_ids_app. unfold accepted_ids at 2. simpl.
      apply NoDup_app.
      * exact Hnd.
      * repeat constructor. intros [].
      * intros k Hk [<-|[]]. apply accepted_ids_In in Hk.
        destruct Hk as (s & Hin & Ha & Hs).
        destruct (Hc s Hin Ha) as (m' & Hf' & Hd').
        rewrite Hs, Hf in Hf'. congruence.
    + intros s Hin Ha. apply in_app_or in Hin.
      destruct (Z.eq_dec (for_message s) mid) as [e|n].
      * rewrite e, find_message_mark_same, Hf. simpl.
        eexists. split; reflexivity.
      * rewrite find_message_mark_other by exact n.
        destruct Hin as [Hin|[<-|[]]]; [now apply Hc | now simpl in n].
  - unfold failed_world, log_consistent. simpl. split.
    + rewrite accepted_ids_app. unfold accepted_ids at 2. simpl.
      now rewrite app_nil_r.
    + intros s Hin Ha. apply in_app_or in Hin.
      destruct Hin as [Hin|[<-|[]]]; [now apply Hc | discriminate].
Qed.

(** X1. At most one accepted mail per message, when the commits go
    through: if no commit of the run raises then, starting from an empty
    mail log, after any sequence of delivery attempts and ticks no message
    id has two accepted calls of [mail.send], and every message with an
    accepted call is held as delivered by the table. (A commit that raises
    after an accepted call leaves the message pending, and it is mailed
    again: [commit_failure_mails_again].) *)
Theorem no_message_sent_twice ops w :
  reliable_commits E ->
  mail_log w = [] ->
  NoDup (accepted_ids (mail_log (snd (run_ops E ops w))))
  /\ log_consistent (snd (run_ops E ops w)).
Proof.
  intros Hcommit Hlog.
  apply (run_ops_preserves E
           (fun w w' =>
              NoDup (accepted_ids (mail_log w)) /\ log_consistent w ->
              NoDup (accepted_ids (mail_log w')) /\ log_consistent w')).
  - auto.
  - auto.
  - intros mid w0. now apply after_attempt_at_most_once.
  - intros n w0 H. exact H.
  - unfold log_consistent. rewrite Hlog. split; [constructor | intros s []].
Qed.




(** X4. Idle tick: when the pending query returns no row, the tick reads
    the clock once and does nothing else. *)
Theorem check_and_send_messages_idle w :
  pending_at (clock E (clock_reads w)) (time_messages w) = [] ->
  check_and_send_messages E w
  = (Ok tt, with_clock_reads (S (clock_reads w)) w).
Proof.
  intros H. rewrite check_and_send_messages_run, H. reflexivity.
Qed.

Lemma same_immutable_fields_refl tbl : Forall2 same_immutable_fields tbl tbl.
Proof.
  induction tbl; constructor; auto. unfold same_immutable_fields. tauto.
Qed.

Lemma same_immutable_fields_trans a b c :
  Forall2 same_immutable_fields a b -> Forall2 same_immutable_fields b c ->
  Forall2 same_immutable_fields a c.
Proof.
  intros Hab. revert c.
  induction Hab as [|x y a b Hxy Hab IH]; intros c Hbc;
    inversion Hbc as [|? z ? c' Hyz Hbc']; subst; constructor.
  - unfold same_immutable_fields in *. intuition congruence.
  - now apply IH.
Qed.

(** X5. Frame of the engine: any sequence of delivery attempts and ticks
    returns normally, leaves the user table alone, only appends to the mail
    log, and keeps the rows of the message table one for one with their
    [id], [user_id], [content], [recipient_email], [delivery_datetime] and
    [created_at]. *)
Theorem run_ops_frame ops w :
  fst (run_ops E ops w) = Ok tt
  /\ users (snd (run_ops E ops w)) = users w
  /\ (exists new, mail_log (snd (run_ops E ops w)) = mail_log w ++ new)
  /\ Forall2 same_immutable_fields
             (time_messages w) (time_messages (snd (run_ops E ops w))).
Proof.
  split; [apply run_ops_ok|].
  apply (run_ops_preserves E
           (fun w w' =>
              users w' = users w
              /\ (exists new, mail_log w' = mail_log w ++ new)
              /\ Forall2 same_immutable_fields
                         (time_messages w) (time_messages w'))).
  - intros w0. split; [reflexivity|]. split.
    + exists []. now rewrite app_nil_r.
    + apply same_immutable_fields_refl.
  - intros a b c (Hu & (n1 & Hl) & Hf) (Hu' & (n2 & Hl') & Hf').
    split; [congruence|]. split.
    + exists (n1 ++ n2). now rewrite Hl', Hl, app_assoc.
    + eapply same_immutable_fields_trans; eassumption.
  - intros mid w0. split; [apply after_attempt_users|]. split.
    + destruct (after_attempt_log E mid w0) as [->|(m & _ & _ & ->)].
      * exists []. now rewrite app_nil_r.
      * eexists. reflexivity.
    + eapply Forall2_impl; [|apply after_attempt_frame]. simpl. tauto.
  - intros n w0. split; [reflexivity|]. split.
    + exists []. simpl. now rewrite app_nil_r.
    + apply same_immutable_fields_refl.
Qed.

End Engine.

(** * Properties of the routes *)

Section Ordering.

Lemma insert_desc_perm m l : Permutation (insert_desc m l) (m :: l).
Proof.
  induction l as [|x l IH]; simpl; [reflexivity|].
  destruct (TimeMessage.created_at x <? TimeMessage.created_at m);
    [reflexivity|].
  rewrite IH. apply perm_swap.
Qed.

Lemma insert_desc_sorted m l :
  sorted_desc l -> sorted_desc (insert_desc m l).
Proof.
  induction l as [|x l IH]; simpl; intros Hs.
  - split; [intros y [] | exact I].
  - destruct Hs as [Hx Hs].
    destruct (Z.ltb_spec (TimeMessage.created_at x) (TimeMessage.created_at m))
      as [Hlt|Hge]; simpl.
    + split; [|split; assumption].
      intros y [<-|Hy]; [lia|]. specialize (Hx y Hy). lia.
    + split; [|now apply IH].
      intros y Hy.
      apply (Permutation_in _ (insert_desc_perm m l)) in Hy.
      destruct Hy as [<-|Hy]; [lia | now apply Hx].
Qed.

Lemma order_by_perm l : Permutation (order_by_created_at_desc l) l.
Proof.
  unfold order_by_created_at_desc.
  induction l as [|x l IH]; simpl; [reflexivity|].
  rewrite insert_desc_perm. now constructor.
Qed.

Lemma order_by_sorted l : sorted_desc (order_by_created_at_desc l).
Proof.
  unfold order_by_created_at_desc.
  induction l as [|x l IH]; simpl; [exact I|].
  now apply insert_desc_sorted.
Qed.

(** X6. The ordering of the dashboard query: the result holds the rows it
    was given, each as often as given, with [created_at] descending. *)
Theorem order_by_created_at_desc_sorts l :
  Permutation (order_by_created_at_desc l) l
  /\ sorted_desc (order_by_created_at_desc l).
Proof.
  split; [apply order_by_perm | apply order_by_sorted].
Qed.

End Ordering.

Section Routes.

Variable E : Env.

Lemma find_user_In k tbl u : find_user k tbl = Some u -> In u tbl.
Proof. unfold find_user. intros H. now apply find_some in H. Qed.

Lemma find_user_id k tbl u : find_user k tbl = Some u -> User.id u = k.
Proof.
  unfold find_user. intros H. apply find_some in H. now apply Z.eqb_eq.
Qed.

Lemma find_user_exists tbl u : In u tbl -> find_user (User.id u) tbl <> None.
Proof.
  unfold find_user. intros Hin Hnone.
  apply (find_none _ _ Hnone) in Hin. now rewrite Z.eqb_refl in Hin.
Qed.

(** X7. What the dashboard shows: for a session with the live stamp whose
    user exists, the page is rendered for that user with exactly the
    messages whose [user_id] is the user's id, newest first; the session
    and the world are left as they were. *)
Theorem dashboard_shows_own_messages session w uid u :
  Session.user_id session = Some uid ->
  is_session_valid E session = true ->
  find_user uid (users w) = Some u ->
  exists messages,
    dashboard E session w = (Ok (session, render_dashboard u messages), w)
    /\ (forall m, In m messages <->
                  In m (time_messages w) /\ TimeMessage.user_id m = uid)
    /\ sorted_desc messages.
Proof.
  intros Hs Hv Hu. unfold dashboard. rewrite Hs, Hv. simpl.
  unfold bind, db_get_user, query_messages_of, ret. rewrite Hu.
  rewrite (find_user_id _ _ _ Hu).
  eexists. split; [reflexivity|].
  pose proof (order_by_perm
                (filter (fun m => TimeMessage.user_id m =? uid)
                        (time_messages w))) as Hp.
  split; [|apply order_by_sorted].
  intros m. split.
  - intros Hin. apply (Permutation_in _ Hp) in Hin.
    apply filter_In in Hin. now rewrite Z.eqb_eq in Hin.
  - intros [Hin Hid]. apply (Permutation_in _ (Permutation_sym Hp)).
    apply filter_In. now rewrite Z.eqb_eq.
Qed.

(** X8. The dashboard is guarded and read-only: it never changes the
    world; it renders the page only for a session that carries a
    [user_id] of a stored user and the live stamp, and keeps that session;
    in every other case it clears the session and redirects to the login
    page. *)
Theorem dashboard_guarded session w :
  snd (dashboard E session w) = w
  /\ ((exists u messages,
         fst (dashboard E session w)
         = Ok (session, render_dashboard u messages)
         /\ Session.user_id session = Some (User.id u)
         /\ In u (users w)
         /\ is_session_valid E session = true)
      \/ (exists flashed,
            fst (dashboard E session w)
            = Ok (Session.clear, redirect flashed "login"))).
Proof.
  unfold dashboard.
  destruct (Session.user_id session) as [uid|] eqn:Hs;
    [|split; [reflexivity | right; eexists; reflexivity]].
  destruct (is_session_valid E session) eqn:Hv; simpl;
    [|split; [reflexivity | right; eexists; reflexivity]].
  unfold bind, db_get_user, query_messages_of, ret.
  destruct (find_user uid (users w)) as [u|] eqn:Hu;
    [|split; [reflexivity | right; eexists; reflexivity]].
  split; [reflexivity|]. left. exists u. eexists.
  split; [reflexivity|].
  rewrite (find_user_id _ _ _ Hu). split; [reflexivity|].
  split; [now apply find_user_In in Hu | reflexivity].
Qed.

Lemma next_id_above tbl m :
  In m tbl -> TimeMessage.id m < next_id tbl.
Proof.
  unfold next_id. induction tbl as [|x tbl IH]; [easy|].
  cbn [map fold_right]. intros [->|Hin]; [lia|]. specialize (IH Hin). lia.
Qed.

Lemma find_message_app_l k tbl tbl' m :
  find_message k tbl = Some m -> find_message k (tbl ++ tbl') = Some m.
Proof.
  unfold find_message. induction tbl as [|x tbl IH]; simpl; [easy|].
  destruct (TimeMessage.id x =? k); auto.
Qed.

Lemma find_message_new tbl new :
  TimeMessage.id new = next_id tbl ->
  find_message (next_id tbl) (tbl ++ [new]) = Some new.
Proof.
  unfold find_message. intros Hid.
  assert (H : forall l, (forall x, In x l -> TimeMessage.id x < next_id tbl) ->
                        find (fun m => TimeMessage.id m =? next_id tbl)
                             (l ++ [new]) = Some new).
  { induction l as [|x l IH]; simpl; intros Hl.
    - now rewrite Hid, Z.eqb_refl.
    - destruct (Z.eqb_spec (TimeMessage.id x) (next_id tbl)) as [e|_].
      + specialize (Hl x (or_introl eq_refl)). lia.
      + apply IH. intros y Hy. apply Hl. now right. }
  apply H. intros x. apply next_id_above.
Qed.

(** The message table after [create_message]: as before, or one more row
    with the next key. *)
Lemma create_message_outcome_table session request w :
  time_messages (snd (create_message E session request w)) = time_messages w
  \/ exists new,
       time_messages (snd (create_message E session request w))
       = time_messages w ++ [new]
       /\ TimeMessage.id new = next_id (time_messages w).
Proof.
  unfold create_message, bind, db_get_user, ret; simpl.
  destruct (Session.user_id session) as [uid|]; [|simpl; auto].
  destruct (find_user uid (users w)); [|simpl; auto].
  destruct (method request); [simpl; auto|].
  destruct (form request "content"); [|simpl; auto].
  destruct (form request "recipient_email"); [|simpl; auto].
  destruct (form request "delivery_date"); [|simpl; auto].
  destruct (form request "delivery_time"); [|simpl; auto].
  destruct (_ || _ || _ || _); [simpl; auto|].
  destruct (strptime E _) as [d|]; [|simpl; auto].
  unfold datetime_now.
  destruct (d <=? clock E (clock_reads w)); simpl; [auto|].
  unfold add_message, bind, datetime_now, db_session_commit. simpl.
  destruct (commit_ok E (commits w)); simpl; [|auto].
  right. eexists. split; reflexivity.
Qed.

(** X9. What [create_message] can do to the world: it never touches the
    user table or the mail log, and it either leaves the message table as
    it was or appends one row. A row is appended only on a POST from a
    session whose [user_id] is a stored user; the row is owned by that
    user, carries the submitted content and recipient, is undelivered with
    a null [delivered_at], has the next key, and its [delivery_datetime] is
    strictly later than the clock reading taken at validation. *)
Theorem create_message_outcome session request w :
  let w' := snd (create_message E session request w) in
  users w' = users w
  /\ mail_log w' = mail_log w
  /\ (time_messages w' = time_messages w
      \/ exists uid new,
           Session.user_id session = Some uid
           /\ find_user uid (users w) <> None
           /\ method request = POST
           /\ time_messages w' = time_messages w ++ [new]
           /\ TimeMessage.id new = next_id (time_messages w)
           /\ TimeMessage.user_id new = uid
           /\ form request "content" = Some (TimeMessage.content new)
           /\ form request "recipient_email"
              = Some (TimeMessage.recipient_email new)
           /\ fresh new
           /\ clock E (clock_reads w) < TimeMessage.delivery_datetime new
           /\ TimeMessage.created_at new = clock E (S (clock_reads w))
           /\ fst (create_message E session request w)
              = Ok (session,
                    redirect (Some ("Time-locked message created successfully!",
                                    "success")) "dashboard")).
Proof.
  unfold create_message, bind, db_get_user, ret; simpl.
  destruct (Session.user_id session) as [uid|] eqn:Hs; [|simpl; auto].
  destruct (find_user uid (users w)) eqn:Hu; [|simpl; auto].
  destruct (method request) eqn:Hm; [simpl; auto|].
  destruct (form request "content") as [content|] eqn:Hc; [|simpl; auto].
  destruct (form request "recipient_email") as [rcpt|] eqn:Hr;
    [|simpl; auto].
  destruct (form request "delivery_date"); [|simpl; auto].
  destruct (form request "delivery_time"); [|simpl; auto].
  destruct (_ || _ || _ || _); [simpl; auto|].
  destruct (strptime E _) as [d|]; [|simpl; auto].
  unfold datetime_now.
  destruct (Z.leb_spec d (clock E (clock_reads w))) as [Hle|Hgt];
    [simpl; auto|].
  unfold add_message, bind, datetime_now, db_session_commit. simpl.
  destruct (commit_ok E (commits w)); simpl; [|auto].
  split; [reflexivity|]. split; [reflexivity|]. right.
  exists uid. eexists. split; [reflexivity|]. split; [congruence|].
  split; [reflexivity|]. split; [reflexivity|]. simpl.
  unfold fresh. simpl. repeat split; auto.
Qed.

(** X10. [create_message] keeps the message table well keyed: under the
    primary-key constraint the table after the request satisfies it too,
    and every id that was found before is found after, with the same row. *)
Theorem create_message_keeps_primary_key session request w :
  PrimaryKey (time_messages w) ->
  let w' := snd (create_message E session request w) in
  PrimaryKey (time_messages w')
  /\ (forall k m, find_message k (time_messages w) = Some m ->
                  find_message k (time_messages w') = Some m)
  /\ (forall new, time_messages w' = time_messages w ++ [new] ->
                  find_message (TimeMessage.id new) (time_messages w')
                  = Some new).
Proof.
  intros Hk. cbv zeta.
  destruct (create_message_outcome_table session request w)
    as [->|(new & -> & Hid)].
  - split; [exact Hk|]. split; [auto|].
    intros new Hnew. exfalso.
    apply (f_equal (@List.length TimeMessage.t)) in Hnew.
    rewrite length_app in Hnew. simpl in Hnew. lia.
  - split; [|split].
    + unfold PrimaryKey in *. rewrite map_app. simpl.
      apply NoDup_app; [exact Hk | repeat constructor; intros [] |].
      intros k Hin [<-|[]]. apply in_map_iff in Hin.
      destruct Hin as (x & Hx & Hin). apply next_id_above in Hin. lia.
    + intros k m. apply find_message_app_l.
    + intros new' Hnew. apply app_inj_tail in Hnew.
      destruct Hnew as [_ <-]. rewrite Hid.
      now apply find_message_new.
Qed.

End Routes.

(** * Properties of the account routes *)

Section AccountRoutes.

Variable E : Env.
Variable A : Auth.

Lemma find_by_username_some name tbl u :
  find_by_username name tbl = Some u -> In u tbl /\ User.username u = name.
Proof.
  unfold find_by_username. intros H. apply find_some in H.
  destruct H as [Hin H]. now apply String.eqb_eq in H.
Qed.

Lemma find_by_username_none name tbl :
  find_by_username name tbl = None -> ~ In name (map User.username tbl).
Proof.
  unfold find_by_username. intros H Hin. apply in_map_iff in Hin.
  destruct Hin as (u & Hu & Hin). apply (find_none _ _ H) in Hin.
  simpl in Hin. rewrite Hu, String.eqb_refl in Hin. discriminate.
Qed.

Lemma find_by_email_none email tbl :
  find_by_email email tbl = None -> ~ In email (map User.email tbl).
Proof.
  unfold find_by_email. intros H Hin. apply in_map_iff in Hin.
  destruct Hin as (u & Hu & Hin). apply (find_none _ _ H) in Hin.
  simpl in Hin. rewrite Hu, String.eqb_refl in Hin. discriminate.
Qed.

Lemma find_by_username_new name tbl u :
  find_by_username name tbl = None -> User.username u = name ->
  find_by_username name (tbl ++ [u]) = Some u.
Proof.
  unfold find_by_username. intros Hnone Hu.
  induction tbl as [|x tbl IH]; simpl in *.
  - now rewrite Hu, String.eqb_refl.
  - destruct (User.username x =? name)%string; [discriminate | auto].
Qed.

(** X11. What [login] grants: it never changes the world. It answers with
    the redirect to the dashboard only for a POST whose username is that of
    a stored user whose password hash checks against the submitted
    password, and then the session holds that user's id and name and the
    live [APP_START_TIME]; in every other case the session is returned as
    it was. *)
Theorem login_outcome session request w :
  snd (login E A session request w) = w
  /\ ((exists r, fst (login E A session request w) = Ok (session, r)
                 /\ forall flashed, r <> redirect flashed "dashboard")
      \/ (exists user password,
            method request = POST
            /\ form request "username" = Some (User.username user)
            /\ form request "password" = Some password
            /\ In user (users w)
            /\ check_password A user password = true
            /\ fst (login E A session request w)
               = Ok ({| Session.user_id := Some (User.id user);
                        Session.username := Some (User.username user);
                        Session.app_start_time := Some (APP_START_TIME E) |},
                     redirect (Some ("Login successful!", "success"))
                              "dashboard"))).
Proof.
  unfold login.
  destruct (method request) eqn:Hm;
    [split; [reflexivity | left; eexists; split; [reflexivity|discriminate]]|].
  destruct (form request "username") as [name|] eqn:Hn;
    [|split; [reflexivity | left; eexists; split; [reflexivity|discriminate]]].
  destruct (form request "password") as [password|] eqn:Hp;
    [|split; [reflexivity | left; eexists; split; [reflexivity|discriminate]]].
  unfold bind, query_user_by_username, ret.
  destruct (find_by_username name (users w)) as [user|] eqn:Hu;
    [|split; [reflexivity | left; eexists; split; [reflexivity|discriminate]]].
  destruct (check_password A user password) eqn:Hc;
    [|split; [reflexivity | left; eexists; split; [reflexivity|discriminate]]].
  split; [reflexivity|]. right. exists user, password.
  apply find_by_username_some in Hu. destruct Hu as [Hin Hname].
  rewrite Hname. repeat split; auto.
Qed.

(** A session [login] grants is the stamped session of a stored user. *)
Lemma login_granted session request w session' flashed :
  fst (login E A session request w)
  = Ok (session', redirect flashed "dashboard") ->
  exists user,
    In user (users w)
    /\ session' = {| Session.user_id := Some (User.id user);
                     Session.username := Some (User.username user);
                     Session.app_start_time := Some (APP_START_TIME E) |}.
Proof.
  unfold login.
  destruct (method request); [discriminate|].
  destruct (form request "username") as [name|]; [|discriminate].
  destruct (form request "password") as [password|]; [|discriminate].
  unfold bind, query_user_by_username, ret.
  destruct (find_by_username name (users w)) as [user|] eqn:Hu;
    [|discriminate].
  destruct (check_password A user password); [|discriminate].
  simpl. intros [= <- _]. exists user.
  apply find_by_username_some in Hu. tauto.
Qed.

(** X12. A session granted by [login] opens the dashboard: when [login]
    answers with the redirect to the dashboard, the [dashboard] route of
    the same process, called with the session [login] returned, renders
    the page and keeps the session. *)
Theorem login_then_dashboard session request w session' flashed :
  fst (login E A session request w)
  = Ok (session', redirect flashed "dashboard") ->
  exists user messages,
    dashboard E session' w
    = (Ok (session', render_dashboard user messages), w)
    /\ Session.user_id session' = Some (User.id user).
Proof.
  intros Hlogin.
  destruct (login_granted session request w session' flashed Hlogin)
    as (user & Hin & -> ).
  unfold dashboard, is_session_valid. simpl. rewrite Z.eqb_refl. simpl.
  unfold bind, db_get_user, query_messages_of, ret.
  destruct (find_user (User.id user) (users w)) as [u|] eqn:Hu.
  - exists u. eexists. split; [reflexivity|].
    now rewrite (find_user_id _ _ _ Hu).
  - now apply find_user_exists in Hin.
Qed.

(** X13. Anonymous sessions, and logging out: [logout] returns a session
    without [user_id] whatever the session was, and for every session
    without [user_id] the three routes that test [user_id] answer as to an
    anonymous visitor: [index] shows the landing page, [dashboard] clears
    the session and redirects to the login page, and [create_message]
    redirects to the login page; [dashboard] and [create_message] leave
    the world as it was. *)
Theorem logout_ends_session session :
  Session.user_id (fst (logout session)) = None
  /\ forall s request w,
       Session.user_id s = None ->
       index s = render_template None "index.html"
       /\ dashboard E s w
          = (Ok (Session.clear,
                 redirect (Some ("Please login to access dashboard.", "info"))
                          "login"), w)
       /\ create_message E s request w
          = (Ok (s, redirect (Some ("Please login to create messages.",
                                   "info")) "login"), w).
Proof.
  split; [reflexivity|]. intros s request w Hs.
  unfold index, dashboard, create_message. now rewrite Hs.
Qed.

(** What [register] does to the user table: nothing, or one more row with
    a new username and a new email. *)
Lemma register_users request w :
  users (snd (register E A request w)) = users w
  \/ exists name email password created,
       form request "username" = Some name
       /\ form request "email" = Some email
       /\ form request "password" = Some password
       /\ find_by_username name (users w) = None
       /\ find_by_email email (users w) = None
       /\ users (snd (register E A request w))
          = users w ++
            [{| User.id := next_user_id (users w);
                User.username := name;
                User.email := email;
                User.password_hash := generate_password_hash A password;
                User.created_at := created |}].
Proof.
  unfold register.
  destruct (method request); [now left|].
  destruct (form request "username") as [name|]; [|now left].
  destruct (form request "email") as [email|]; [|now left].
  destruct (form request "password") as [password|]; [|now left].
  destruct (_ || _ || _); [now left|].
  unfold bind, query_user_by_username, query_user_by_email, ret.
  destruct (find_by_username name (users w)) eqn:Hn; [now left|].
  destruct (find_by_email email (users w)) eqn:He; [now left|].
  unfold add_user, bind, datetime_now, db_session_commit. simpl.
  destruct (commit_ok E (commits w)); [|now left].
  right. exists name, email, password. eexists.
  repeat split; auto.
Qed.

(** X14. [register] keeps usernames and emails unique: if no two stored
    users share a username or an email before the request, none do after
    it; the message table and the mail log are not touched. *)
Theorem register_keeps_users_unique request w :
  UniqueUsers (users w) ->
  let w' := snd (register E A request w) in
  UniqueUsers (users w')
  /\ time_messages w' = time_messages w
  /\ mail_log w' = mail_log w.
Proof.
  intros [Hn He]. cbv zeta. split.
  - destruct (register_users request w)
      as [->|(name & email & pw & created & _ & _ & _ & Hfn & Hfe & ->)];
      [now split|].
    unfold UniqueUsers. rewrite !map_app. simpl. split.
    + apply NoDup_app; [exact Hn | repeat constructor; intros [] |].
      intros k Hin [<-|[]]. now apply find_by_username_none in Hfn.
    + apply NoDup_app; [exact He | repeat constructor; intros [] |].
      intros k Hin [<-|[]]. now apply find_by_email_none in Hfe.
  - unfold register.
    destruct (method request); [now split|].
    destruct (form request "username") as [name|]; [|now split].
    destruct (form request "email") as [email|]; [|now split].
    destruct (form request "password") as [password|]; [|now split].
    destruct (_ || _ || _); [now split|].
    unfold bind, query_user_by_username, query_user_by_email, ret.
    destruct (find_by_username name (users w)); [now split|].
    destruct (find_by_email email (users w)); [now split|].
    unfold add_user, bind, datetime_now, db_session_commit. simpl.
    destruct (commit_ok E (commits w)); now split.
Qed.

(** When [register] answers with the redirect to the login page, the
    submitted fields are present and a row was appended. *)
Lemma register_succeeded request w flashed :
  fst (register E A request w) = Ok (redirect flashed "login") ->
  exists name email password created,
    form request "username" = Some name
    /\ form request "password" = Some password
    /\ find_by_username name (users w) = None
    /\ users (snd (register E A request w))
       = users w ++
         [{| User.id := next_user_id (users w);
             User.username := name;
             User.email := email;
             User.password_hash := generate_password_hash A password;
             User.created_at := created |}].
Proof.
  unfold register.
  destruct (method request); [discriminate|].
  destruct (form request "username") as [name|]; [|discriminate].
  destruct (form request "email") as [email|]; [|discriminate].
  destruct (form request "password") as [password|]; [|discriminate].
  destruct (_ || _ || _); [discriminate|].
  unfold bind, query_user_by_username, query_user_by_email, ret.
  destruct (find_by_username name (users w)) eqn:Hn; [discriminate|].
  destruct (find_by_email email (users w)); [discriminate|].
  unfold add_user, bind, datetime_now, db_session_commit. simpl.
  destruct (commit_ok E (commits w)); [|discriminate].
  intros _. exists name, email, password. eexists.
  repeat split; auto.
Qed.

(** X15. Register, then log in: provided a hash checks against the
    password it was generated from, after a registration that answered
    with the redirect to the login page, a login POST with the registered
    username and password is granted a session for the new user, stamped
    with the live [APP_START_TIME]. *)
Theorem register_then_login request w flashed session login_request
        name password :
  hash_contract A ->
  fst (register E A request w) = Ok (redirect flashed "login") ->
  form request "username" = Some name ->
  form request "password" = Some password ->
  method login_request = POST ->
  form login_request "username" = Some name ->
  form login_request "password" = Some password ->
  login E A session login_request (snd (register E A request w))
  = (Ok ({| Session.user_id := Some (next_user_id (users w));
            Session.username := Some name;
            Session.app_start_time := Some (APP_START_TIME E) |},
         redirect (Some ("Login successful!", "success")) "dashboard"),
     snd (register E A request w)).
Proof.
  intros Hhash Hreg Hname Hpw Hm Hlname Hlpw.
  destruct (register_succeeded request w flashed Hreg)
    as (name' & email & pw' & created & Hn' & Hp' & Hfree & Husers).
  assert (name' = name) by congruence.
  assert (pw' = password) by congruence. subst name' pw'.
  unfold login. rewrite Hm, Hlname, Hlpw.
  unfold bind, query_user_by_username, ret. rewrite Husers.
  rewrite find_by_username_new; [|exact Hfree|reflexivity].
  unfold check_password. simpl. now rewrite Hhash.
Qed.

End AccountRoutes.

(** X16. A restart invalidates the sessions of the old process for the
    dashboard: a session granted by [login] under one [APP_START_TIME] is
    cleared and sent to the login page by the [dashboard] of a process
    with a different [APP_START_TIME], whatever its world. *)
Theorem restart_invalidates_session E1 E2 A session request w session'
        flashed w2 :
  APP_START_TIME E2 <> APP_START_TIME E1 ->
  fst (login E1 A session request w)
  = Ok (session', redirect flashed "dashboard") ->
  dashboard E2 session' w2
  = (Ok (Session.clear,
         redirect (Some ("Please login to access dashboard.", "info"))
                  "login"), w2).
Proof.
  intros Hne Hlogin.
  destruct (login_granted E1 A session request w session' flashed Hlogin)
    as (user & _ & ->).
  apply dashboard_rejects_stale_session.
  unfold is_session_valid. simpl. apply Z.eqb_neq. congruence.
Qed.

(** X17. The scheduler is set up once: however many times
    [init_scheduler] is called, from an unset global the scheduler is
    running with the single job [message_checker], the tick every minute;
    and a call on a scheduler that is set leaves it as it is. *)
Theorem init_scheduler_once n :
  Nat.iter (S n) init_scheduler None
  = Some {| jobs := [{| func := Tick; trigger := "interval";
                        minutes := 1; job_id := "message_checker" |}];
            running := true |}
  /\ forall s, Nat.iter n init_scheduler (Some s) = Some s.
Proof.
  assert (H : forall s, Nat.iter n init_scheduler (Some s) = Some s).
  { intros s. induction n as [|k IH]; [reflexivity|].
    simpl. now rewrite IH. }
  split; [|exact H].
  rewrite Nat.iter_succ_r. simpl. apply H.
Qed.

(** * The scheduler over several ticks *)

Section Ticks.

Variable E : Env.

Lemma after_loop_ids l w :
  map TimeMessage.id (time_messages (after_loop E l w))
  = map TimeMessage.id (time_messages w).
Proof.
  revert w. induction l as [|a l IH]; intros w; [reflexivity|].
  rewrite after_loop_cons, IH.
  destruct (after_attempt_table E (TimeMessage.id a) w)
    as [->|(m & _ & _ & _ & ->)]; [reflexivity | apply mark_delivered_ids].
Qed.

Lemma run_ops_tick ops w :
  snd (run_ops E (Tick :: ops) w)
  = snd (run_ops E ops (snd (check_and_send_messages E w))).
Proof.
  unfold run_ops. simpl. unfold bind.
  now rewrite check_and_send_messages_run.
Qed.

Lemma tick_reads w :
  (S (clock_reads w) <= clock_reads (snd (check_and_send_messages E w)))%nat.
Proof.
  rewrite check_and_send_messages_run. cbn [snd].
  apply (after_loop_reads E _ (with_clock_reads (S (clock_reads w)) w)).
Qed.

Lemma ticks_reads n w :
  (clock_reads w <= clock_reads (snd (run_ops E (repeat Tick n) w)))%nat.
Proof.
  revert w. induction n as [|n IH]; intros w; [simpl; lia|].
  cbn [repeat]. rewrite run_ops_tick.
  pose proof (tick_reads w).
  specialize (IH (snd (check_and_send_messages E w))). lia.
Qed.

(** One tick that captured a [now] before the message is due: the row is
    kept and no call is made for it. *)
Lemma tick_keeps_future_row w m :
  PrimaryKey (time_messages w) ->
  In m (time_messages w) ->
  clock E (clock_reads w) < TimeMessage.delivery_datetime m ->
  let w' := snd (check_and_send_messages E w) in
  PrimaryKey (time_messages w')
  /\ find_message (TimeMessage.id m) (time_messages w') = Some m
  /\ exists new,
       mail_log w' = mail_log w ++ new
       /\ Forall (fun s => for_message s <> TimeMessage.id m) new.
Proof.
  intros Hk Hin Hlate. cbv zeta.
  rewrite check_and_send_messages_run. cbn [snd].
  set (now := clock E (clock_reads w)) in *.
  assert (Hnot : forall p, In p (pending_at now (time_messages w)) ->
                           TimeMessage.id p <> TimeMessage.id m).
  { intros p Hp e. apply pending_at_In in Hp.
    destruct Hp as (Hp & _ & Hdue).
    rewrite (primary_key_injective _ p m Hk Hp Hin e) in Hdue. lia. }
  split; [|split].
  - unfold PrimaryKey. now rewrite after_loop_ids.
  - rewrite after_loop_find_other by exact Hnot.
    now apply find_message_unique.
  - destruct (after_loop_log E (pending_at now (time_messages w))
                (with_clock_reads (S (clock_reads w)) w))
      as (new & Hlog & Hall).
    exists new. split; [exact Hlog|].
    eapply Forall_impl; [|exact Hall].
    intros s (p & Hp & ->). now apply Hnot.
Qed.

(** X18. No early delivery over a run of the scheduler: if every clock
    reading taken during [n] consecutive ticks is before the message's
    [delivery_datetime], then after the [n] ticks the row is as it was and
    none of the calls of [mail.send] made meanwhile is for it. *)
Theorem ticks_no_early_delivery n w m :
  PrimaryKey (time_messages w) ->
  In m (time_messages w) ->
  (forall j, (clock_reads w <= j)%nat ->
             (j < clock_reads (snd (run_ops E (repeat Tick n) w)))%nat ->
             clock E j < TimeMessage.delivery_datetime m) ->
  find_message (TimeMessage.id m)
    (time_messages (snd (run_ops E (repeat Tick n) w))) = Some m
  /\ exists new,
       mail_log (snd (run_ops E (repeat Tick n) w)) = mail_log w ++ new
       /\ Forall (fun s => for_message s <> TimeMessage.id m) new.
Proof.
  revert w. induction n as [|n IH]; intros w Hk Hin Hclock.
  - simpl. split; [now apply find_message_unique|].
    exists []. split; [now rewrite app_nil_r | constructor].
  - cbn [repeat] in *. rewrite run_ops_tick in *.
    set (w1 := snd (check_and_send_messages E w)) in *.
    pose proof (tick_reads w) as Hr1. fold w1 in Hr1.
    pose proof (ticks_reads n w1) as Hr2.
    destruct (tick_keeps_future_row w m Hk Hin) as (Hk1 & Hf1 & new1 & Hl1 & Ha1).
    { apply Hclock; lia. }
    fold w1 in Hk1, Hf1, Hl1.
    destruct (IH w1 Hk1 (find_message_In _ _ _ Hf1)) as (Hf & new2 & Hl2 & Ha2).
    { intros j Hj1 Hj2. apply Hclock; lia. }
    split; [exact Hf|].
    exists (new1 ++ new2). split.
    + now rewrite Hl2, Hl1, app_assoc.
    + apply Forall_app. now split.
Qed.

End Ticks.

(** * What is mailed *)

Section Mailed.

Variable E : Env.

Lemma render_same_fields m m' :
  same_immutable_fields m m' -> render E m' = render E m.
Proof.
  unfold same_immutable_fields, render.
  intros (_ & _ & -> & -> & -> & ->). reflexivity.
Qed.

Lemma Forall2_In_right {X Y} (R : X -> Y -> Prop) a b y :
  Forall2 R a b -> In y b -> exists x, In x a /\ R x y.
Proof.
  induction 1 as [|x0 y0 a b Hxy Hab IH]; simpl; [easy|].
  intros [<-|Hin].
  - exists x0. auto.
  - destruct (IH Hin) as (x & Hx & Hr). exists x. auto.
Qed.

Lemma rows_correspond_refl tbl :
  Forall2 (fun r r' => same_immutable_fields r r' /\ stays_delivered r r')
          tbl tbl.
Proof.
  induction tbl; constructor; auto.
  unfold same_immutable_fields, stays_delivered. tauto.
Qed.

Lemma rows_correspond_trans a b c :
  Forall2 (fun r r' => same_immutable_fields r r' /\ stays_delivered r r')
          a b ->
  Forall2 (fun r r' => same_immutable_fields r r' /\ stays_delivered r r')
          b c ->
  Forall2 (fun r r' => same_immutable_fields r r' /\ stays_delivered r r')
          a c.
Proof.
  intros Hab. revert c.
  induction Hab as [|x y a b Hxy Hab IH]; intros c Hbc;
    inversion Hbc as [|? z ? c' Hyz Hbc']; subst; constructor.
  - unfold same_immutable_fields, stays_delivered in *.
    intuition congruence.
  - now apply IH.
Qed.

Lemma mailed_from_refl w : mailed_from E w w.
Proof. split; [apply rows_correspond_refl | auto]. Qed.

Lemma mailed_from_trans a b c :
  mailed_from E a b -> mailed_from E b c -> mailed_from E a c.
Proof.
  intros [Hab Hlab] [Hbc Hlbc]. split.
  - eapply rows_correspond_trans; eassumption.
  - intros s Hin. destruct (Hlbc s Hin) as [Hb|(mb & Hmb & Hd & Hid & Hmail)].
    + now apply Hlab.
    + right.
      destruct (Forall2_In_right _ _ _ _ Hab Hmb)
        as (ma & Hma & Hfields & Hsame & Hstay).
      exists ma. split; [exact Hma|]. split.
      * destruct (TimeMessage.delivered ma); [|reflexivity].
        rewrite Hstay in Hd; [discriminate | reflexivity].
      * split; [congruence|].
        now rewrite Hmail, (render_same_fields _ _ Hfields).
Qed.

Lemma mailed_from_attempt mid w : mailed_from E w (after_attempt E mid w).
Proof.
  split.
  - destruct (after_attempt_table E mid w) as [->|(m & _ & _ & _ & ->)].
    + apply rows_correspond_refl.
    + eapply Forall2_impl; [|apply mark_delivered_rows].
      intros r r' ->. unfold same_immutable_fields, stays_delivered.
      destruct (TimeMessage.id r =? mid); simpl; tauto.
  - intros s Hin.
    destruct (after_attempt_log E mid w) as [Hsame|(m & Hf & Hd & Hext)].
    + left. now rewrite <- Hsame.
    + rewrite Hext in Hin. apply in_app_or in Hin.
      destruct Hin as [Hin|[<-|[]]]; [now left|].
      right. exists m. simpl.
      split; [now apply find_message_In in Hf|].
      split; [exact Hd|].
      split; [now apply find_message_id in Hf | reflexivity].
Qed.

(** X19. What is mailed, and to whom: over any sequence of delivery
    attempts and ticks, every call of [mail.send] that was not in the log
    before is for a message the table held as undelivered at the start,
    is addressed to that message's [recipient_email] alone, and carries the
    mail rendered from that row. *)
Theorem mail_goes_to_stored_recipient ops w s :
  In s (mail_log (snd (run_ops E ops w))) ->
  In s (mail_log w)
  \/ exists m, In m (time_messages w)
               /\ TimeMessage.delivered m = false
               /\ for_message s = TimeMessage.id m
               /\ mail s = render E m
               /\ Message.recipients (mail s)
                  = [TimeMessage.recipient_email m].
Proof.
  intros Hin.
  assert (H : mailed_from E w (snd (run_ops E ops w))).
  { apply (run_ops_preserves E (mailed_from E)).
    - apply mailed_from_refl.
    - apply mailed_from_trans.
    - apply mailed_from_attempt.
    - intros n w0. split; [apply rows_correspond_refl | simpl; auto]. }
  destruct H as [_ H].
  destruct (H s Hin) as [Hold|(m & Hm & Hd & Hid & Hmail)]; [now left|].
  right. exists m. repeat split; auto. now rewrite Hmail.
Qed.

End Mailed.

(** * The further properties at the sample data *)

Lemma no_message_sent_twice_witness :
  NoDup (accepted_ids
           (mail_log (snd (run_ops sample_env [Tick; Attempt 3; Tick]
                                   sample_world)))).
Proof.
  apply (no_message_sent_twice sample_env [Tick; Attempt 3; Tick]
                               sample_world).
  - intros k. reflexivity.
  - reflexivity.
Defined.



Lemma check_and_send_messages_idle_witness :
  check_and_send_messages sample_env delivered_sample_world
  = (Ok tt, with_clock_reads 2 delivered_sample_world).
Proof.
  apply (check_and_send_messages_idle sample_env delivered_sample_world).
  reflexivity.
Defined.

Lemma dashboard_shows_own_messages_witness :
  exists messages,
    dashboard sample_env live_session sample_world
    = (Ok (live_session, render_dashboard sample_user messages), sample_world)
    /\ sorted_desc messages.
Proof.
  destruct (dashboard_shows_own_messages
              sample_env live_session sample_world 1 sample_user
              eq_refl eq_refl eq_refl)
    as (messages & Hd & _ & Hs).
  exists messages. split; [exact Hd | exact Hs].
Defined.

Lemma create_message_keeps_primary_key_witness :
  PrimaryKey
    (time_messages
       (snd (create_message sample_env live_session sample_post
                            sample_world))).
Proof.
  apply (create_message_keeps_primary_key
           sample_env live_session sample_post sample_world).
  unfold PrimaryKey. simpl.
  repeat constructor; simpl; intuition discriminate.
Defined.

Lemma login_then_dashboard_witness :
  exists user messages session',
    dashboard sample_env session' registered_world
    = (Ok (session', render_dashboard user messages), registered_world)
    /\ Session.user_id session' = Some (User.id user)
    /\ User.username user = "bob".
Proof.
  destruct (login_then_dashboard
              sample_env sample_auth Session.clear login_bob registered_world
              {| Session.user_id := Some 2;
                 Session.username := Some "bob";
                 Session.app_start_time := Some 2 |}
              (Some ("Login successful!", "success")) eq_refl)
    as (user & messages & Hd & Hid).
  exists user, messages. eexists. split; [exact Hd|]. split; [exact Hid|].
  vm_compute in Hd. now injection Hd as <- _.
Defined.

Lemma register_keeps_users_unique_witness :
  UniqueUsers (users registered_world).
Proof.
  apply (register_keeps_users_unique
           sample_env sample_auth register_bob sample_world).
  unfold UniqueUsers. simpl.
  split; repeat constructor; simpl; intuition discriminate.
Defined.

Lemma register_then_login_witness :
  fst (login sample_env sample_auth Session.clear login_bob registered_world)
  = Ok ({| Session.user_id := Some 2;
           Session.username := Some "bob";
           Session.app_start_time := Some 2 |},
        redirect (Some ("Login successful!", "success")) "dashboard").
Proof.
  unfold registered_world.
  rewrite (register_then_login
             sample_env sample_auth register_bob sample_world
             (Some ("Registration successful! Please login.", "success"))
             Session.clear login_bob "bob" "s3cret").
  - reflexivity.
  - intros password. unfold sample_auth. simpl. apply String.eqb_refl.
  - reflexivity.
  - reflexivity.
  - reflexivity.
  - reflexivity.
  - reflexivity.
  - reflexivity.
Defined.

Lemma restart_invalidates_session_witness :
  dashboard restarted_env
    {| Session.user_id := Some 2;
       Session.username := Some "bob";
       Session.app_start_time := Some 2 |}
    registered_world
  = (Ok (Session.clear,
         redirect (Some ("Please login to access dashboard.", "info"))
                  "login"), registered_world).
Proof.
  apply (restart_invalidates_session
           sample_env restarted_env sample_auth Session.clear login_bob
           registered_world _ (Some ("Login successful!", "success"))).
  - simpl. lia.
  - reflexivity.
Defined.

Lemma ticks_no_early_delivery_witness :
  find_message 6
    (time_messages (snd (run_ops sample_env (repeat Tick 3) sample_world)))
  = Some (sample_message 6 500).
Proof.
  apply (ticks_no_early_delivery sample_env 3 sample_world
                                 (sample_message 6 500)).
  - unfold PrimaryKey. simpl.
    repeat constructor; simpl; intuition discriminate.
  - simpl. tauto.
  - intros j _ Hj.
    set (r := clock_reads _) in Hj. vm_compute in r. subst r.
    change (100 + Z.of_nat j < 500). lia.
Defined.

Lemma mail_goes_to_stored_recipient_witness :
  exists m,
    In m sample_table
    /\ Message.recipients (render sample_env (sample_message 4 80))
       = [TimeMessage.recipient_email m].
Proof.
  destruct (mail_goes_to_stored_recipient
              sample_env [Tick] sample_world
              (mkSent 4 (render sample_env (sample_message 4 80)) true))
    as [[]|(m & Hin & _ & _ & _ & Hr)].
  - vm_compute. tauto.
  - exists m. split; [exact Hin | exact Hr].
Defined.
